(** * Real-time chunk file transfer backend: the session protocol of server.js

    A shallow embedding of the socket handlers of [src/server.js] and of the
    settings of [src/config.js] that they read, followed by the properties of
    the session protocol.

    Conventions of the embedding.
    - The two process-wide [Map]s, [transferSessions] and [activeConnections],
      are finite maps.  A session is a mutable JS object: the registry maps a
      transferId to the address of the object in [heap], so that a session
      keeps its identity when its transferId is registered again or removed.
    - [handle] runs a handler to completion, as in the scheduling model of
      the specification, where an inbound event is handled to completion
      including the store write: no other event is handled while a handler
      awaits [fs.writeFile] or [fs.unlink].  The outcome of the awaited call
      and the values read from the clock ([Date.now()]) are inputs of the
      event.
    - The upload-chunk handler is modelled across its await as well: [step]
      runs it up to [await fs.writeFile] and resumes it when the write has
      settled, with other events handled in between; [handle] gives the
      runs in which the write settles before anything else is handled.
    - A handler returns the new state together with the list of the events
      it emits, in emission order.  [socket.emit] addresses the calling
      socket, [io.to(r).emit] addresses the room [r]; the room table itself
      belongs to the transport ([socket.join]) and is not part of the state.
    - Payloads carry the data fields of the emitted objects; the
      human-readable [message] texts are left out.
    - A JS number used as an index, a size or a time is a natural number. *)

From Stdlib Require Import NArith Ascii String DecimalString DecimalN.
From Stdlib Require Strings.Byte.
From stdpp Require Import gmap strings list fin_maps.

Local Open Scope N_scope.

(** ** Strings: template literals and [path.join] *)

Module Str.

(** [s.split(sep)] on the characters of a string: the segments between
    separators, of which there is always at least one. *)
Fixpoint split (sep : ascii) (s : string) : list string :=
  match s with
  | EmptyString => [EmptyString]
  | String a s' =>
      if Ascii.eqb a sep then EmptyString :: split sep s'
      else
        match split sep s' with
        | seg :: rest => String a seg :: rest
        | [] => [String a EmptyString]
        end
  end.

(** [segs.join("/")]. *)
Fixpoint join (sep : string) (segs : list string) : string :=
  match segs with
  | [] => EmptyString
  | [x] => x
  | x :: rest => x +:+ sep +:+ join sep rest
  end.

Fixpoint last_char (s : string) : option ascii :=
  match s with
  | EmptyString => None
  | String a EmptyString => Some a
  | String _ s' => last_char s'
  end.

Definition first_char (s : string) : option ascii :=
  match s with
  | EmptyString => None
  | String a _ => Some a
  end.

Fixpoint contains (c : ascii) (s : string) : bool :=
  match s with
  | EmptyString => false
  | String a s' => Ascii.eqb a c || contains c s'
  end.

(** Template-literal conversion [`${n}`] of a non-negative integer below
    10^21, which JS prints in plain decimal. *)
Definition of_N (n : N) : string := NilEmpty.string_of_uint (N.to_uint n).

End Str.

(** Node's [path] module (POSIX flavour) is a dependency of the server, not
    part of the repository.  The two functions below follow its documented
    behaviour: [normalize] resolves [.] and [..] segments, collapses runs of
    separators and keeps a trailing separator; [join] drops zero-length
    arguments, joins the others with the separator and normalizes, with [.]
    for an empty result. *)
Module path.

Definition sep : ascii := "/"%char.

(** The segment stack of [normalizeString], most recent segment first.
    [allow_above_root] is set for relative paths, where a leading [..] is
    kept. *)
Fixpoint normalize_segments (allow_above_root : bool) (stack : list string)
    (segs : list string) : list string :=
  match segs with
  | [] => rev stack
  | seg :: rest =>
      if String.eqb seg "" || String.eqb seg "." then
        normalize_segments allow_above_root stack rest
      else if String.eqb seg ".." then
        match stack with
        | top :: below =>
            if String.eqb top ".." then
              normalize_segments allow_above_root
                (if allow_above_root then seg :: stack else stack) rest
            else normalize_segments allow_above_root below rest
        | [] =>
            normalize_segments allow_above_root
              (if allow_above_root then [seg] else []) rest
        end
      else normalize_segments allow_above_root (seg :: stack) rest
  end.

Definition normalize (p : string) : string :=
  if String.eqb p "" then "."
  else
    let isAbsolute := bool_decide (Str.first_char p = Some sep) in
    let trailingSeparator := bool_decide (Str.last_char p = Some sep) in
    let body :=
      Str.join "/" (normalize_segments (negb isAbsolute) [] (Str.split sep p)) in
    if String.eqb body "" then
      if isAbsolute then "/" else if trailingSeparator then "./" else "."
    else
      (if isAbsolute then "/" else "") +:+ body +:+
      (if trailingSeparator then "/" else "").

Definition join (a b : string) : string :=
  let joined := Str.join "/" (filter (λ s, s ≠ "") [a; b]) in
  if String.eqb joined "" then "." else normalize joined.

End path.

(** ** Data model *)

(** [session.status]: one of the four string constants of the source. *)
Inductive Status := waiting | connected | uploading | completed.

(** [connection.role]: ['sender'] or ['receiver'] ([null] is [None]). *)
Inductive Role := role_sender | role_receiver.

(** The object stored in [session.fileInfo] by the upload-chunk handler. *)
Record FileInfo := mkFileInfo {
  fileName : string;
  fileSize : N;
  fileType : string;
  totalChunks : N;
  uploadStartTime : N
}.

(** An element of [session.chunks]. *)
Module Chunk.
Record t := mk {
  index : N;
  path : string;
  size : N;
  timestamp : N
}.
End Chunk.

(** The session object built by the create-transfer handler; [completedAt]
    is the property added by the upload-complete handler. *)
Record Session := mkSession {
  transferId : string;
  sender : string;
  receiver : option string;
  chunks : list Chunk.t;
  fileInfo : option FileInfo;
  startTime : N;
  status : Status;
  completedAt : option N
}.

(** The object stored in [activeConnections]; [transferId] is absent until
    the socket creates or joins a transfer. *)
Module Connection.
Record t := mk {
  connectedAt : N;
  role : option Role;
  transferId : option string
}.
End Connection.

(** The [data] object of an upload-chunk event. *)
Module Upload.
Record t := mk {
  transferId : string;
  chunk : list Byte.byte;
  chunkIndex : N;
  totalChunks : N;
  fileName : string;
  fileSize : N;
  fileType : string
}.
End Upload.

Inductive ErrorCode :=
  SESSION_NOT_FOUND | RECEIVER_EXISTS | UNAUTHORIZED | CHUNK_SAVE_ERROR.

(** Outbound events, named after the event names of the source. *)
Inductive Payload :=
| transfer_created (tid : string)
| error (code : ErrorCode) (chunkIndex : option N)
| receiver_connected (tid : string) (receiverId : string)
| joined_transfer (tid : string)
| receive_chunk (chunk : list Byte.byte) (chunkIndex totalChunks : N)
    (fileName : string) (fileSize : N) (fileType : string)
| chunk_uploaded (chunkIndex : N)
| transfer_complete (tid : string) (fi : option FileInfo)
| status_response_not_found
| status_response (st : Status) (fi : option FileInfo)
    (chunksReceived : nat) (totalChunks : N)
| peer_disconnected (tid : string) (role : option Role).

Inductive Emit :=
| socket_emit (socketId : string) (p : Payload)
| io_to_emit (room : string) (p : Payload).

Inductive Action := CREATE | JOIN | COMPLETE | DISCONNECT.

(** The arguments of one [logActivity] call. *)
Record LogEntry := mkLogEntry {
  log_action : Action;
  log_transferId : string;
  log_socketId : string
}.

(** The state of the server process. *)
Record Server := mkServer {
  transferSessions : gmap string nat;
  heap : list Session;
  activeConnections : gmap string Connection.t;
  files : gmap string (list Byte.byte);
  timers : list (string * N);
  activity : list LogEntry
}.

Definition initial : Server := mkServer ∅ [] ∅ ∅ [] [].

(** ** JS truthiness of a string-or-null value. *)
Definition truthy (v : option string) : bool :=
  match v with
  | Some s => negb (String.eqb s "")
  | None => false
  end.

(** ** config.js *)
Module config.

(** [process.env.TEMP_DIR || './temp'] *)
Definition TEMP_DIR (env_TEMP_DIR : option string) : string :=
  match env_TEMP_DIR with
  | Some d => if truthy env_TEMP_DIR then d else "./temp"
  | None => "./temp"
  end.

Definition CLEANUP_INTERVAL : N := 3600000.

End config.

(** ** State updates *)

Definition set_transferSessions (m : gmap string nat) (w : Server) : Server :=
  mkServer m (heap w) (activeConnections w) (files w) (timers w) (activity w).

Definition set_heap (h : list Session) (w : Server) : Server :=
  mkServer (transferSessions w) h (activeConnections w) (files w) (timers w)
    (activity w).

Definition set_activeConnections (m : gmap string Connection.t) (w : Server)
    : Server :=
  mkServer (transferSessions w) (heap w) m (files w) (timers w) (activity w).

Definition set_files (fs : gmap string (list Byte.byte)) (w : Server) : Server :=
  mkServer (transferSessions w) (heap w) (activeConnections w) fs (timers w)
    (activity w).

Definition set_timers (ts : list (string * N)) (w : Server) : Server :=
  mkServer (transferSessions w) (heap w) (activeConnections w) (files w) ts
    (activity w).

(** [logActivity(action, transferId, socketId)]: the entry handed to the
    day log; a failed append is caught inside [logActivity]. *)
Definition logActivity (a : Action) (tid sid : string) (w : Server) : Server :=
  mkServer (transferSessions w) (heap w) (activeConnections w) (files w)
    (timers w) (activity w ++ [mkLogEntry a tid sid]).

(** [transferSessions.get(transferId)]: the address of the session object
    and its current contents.  The registry holds addresses of allocated
    objects only (see [handle_allocated]). *)
Definition get_session (w : Server) (tid : string) : option (nat * Session) :=
  l ← transferSessions w !! tid; s ← heap w !! l; Some (l, s).

(** Assignment to the fields of the session object at address [l]. *)
Definition store_session (l : nat) (s : Session) (w : Server) : Server :=
  set_heap (<[l := s]> (heap w)) w.

Definition set_receiver_status (r : option string) (st : Status) (s : Session)
    : Session :=
  mkSession (transferId s) (sender s) r (chunks s) (fileInfo s) (startTime s)
    st (completedAt s).

Definition set_fileInfo_status (fi : option FileInfo) (st : Status)
    (s : Session) : Session :=
  mkSession (transferId s) (sender s) (receiver s) (chunks s) fi (startTime s)
    st (completedAt s).

Definition push_chunk (c : Chunk.t) (s : Session) : Session :=
  mkSession (transferId s) (sender s) (receiver s) (chunks s ++ [c])
    (fileInfo s) (startTime s) (status s) (completedAt s).

Definition set_status_completedAt (st : Status) (t : option N) (s : Session)
    : Session :=
  mkSession (transferId s) (sender s) (receiver s) (chunks s) (fileInfo s)
    (startTime s) st t.

(** [activeConnections.get(socket.id).role = r] followed by
    [activeConnections.get(socket.id).transferId = tid]. *)
Definition bind_connection (r : Role) (tid : string) (c : Connection.t)
    : Connection.t :=
  Connection.mk (Connection.connectedAt c) (Some r) (Some tid).

(** ** The socket handlers *)

Section Handlers.

Variable env_TEMP_DIR : option string.

(** [io.on('connection', ...)]: registers the socket. *)
Definition on_connection (sid : string) (now : N) (w : Server)
    : Server * list Emit :=
  (set_activeConnections
     (<[sid := Connection.mk now None None]> (activeConnections w)) w, []).

(** [socket.on('create-transfer', ...)].  A new session object is allocated
    and registered under [tid], replacing whatever was registered there.  The
    property assignment on [activeConnections.get(socket.id)] throws when the
    socket has no connection record, which ends the handler; a socket that
    delivers events always has one. *)
Definition on_create_transfer (sid tid : string) (now : N) (w : Server)
    : Server * list Emit :=
  let session := mkSession tid sid None [] None now waiting None in
  let l := length (heap w) in
  let w1 :=
    set_transferSessions (<[tid := l]> (transferSessions w))
      (set_heap (heap w ++ [session]) w) in
  match activeConnections w1 !! sid with
  | None => (w1, [])
  | Some c =>
      let w2 :=
        set_activeConnections
          (<[sid := bind_connection role_sender tid c]> (activeConnections w1))
          w1 in
      (logActivity CREATE tid sid w2, [socket_emit sid (transfer_created tid)])
  end.

(** [socket.on('join-transfer', ...)]. *)
Definition on_join_transfer (sid tid : string) (w : Server)
    : Server * list Emit :=
  match get_session w tid with
  | None => (w, [socket_emit sid (error SESSION_NOT_FOUND None)])
  | Some (l, session) =>
      if truthy (receiver session) then
        (w, [socket_emit sid (error RECEIVER_EXISTS None)])
      else
        let session1 := set_receiver_status (Some sid) connected session in
        let w1 := store_session l session1 w in
        match activeConnections w1 !! sid with
        | None => (w1, [])
        | Some c =>
            let w2 :=
              set_activeConnections
                (<[sid := bind_connection role_receiver tid c]>
                   (activeConnections w1)) w1 in
            (logActivity JOIN tid sid w2,
             [io_to_emit (sender session1) (receiver_connected tid sid);
              socket_emit sid (joined_transfer tid)])
        end
  end.

(** The storage key of a chunk:
    [path.join(config.TEMP_DIR, `${transferId}_chunk_${chunkIndex}`)]. *)
Definition chunkPath (tid : string) (chunkIndex : N) : string :=
  path.join (config.TEMP_DIR env_TEMP_DIR)
    (tid +:+ "_chunk_" +:+ Str.of_N chunkIndex).

(** The [if (chunkIndex === 0)] block of the upload-chunk handler. *)
Definition store_file_info (d : Upload.t) (now : N) (session : Session)
    : Session :=
  if Upload.chunkIndex d =? 0 then
    set_fileInfo_status
      (Some (mkFileInfo (Upload.fileName d) (Upload.fileSize d)
               (Upload.fileType d) (Upload.totalChunks d) now))
      uploading session
  else session.

(** The [try] block of the upload-chunk handler, entered with the session
    object at [l]; [session] is the contents of that object when the block
    goes on after the write, [write_ok] tells whether [Buffer.from] and
    [fs.writeFile] succeed, [now] is the [Date.now()] of the metadata. *)
Definition save_and_relay (sid : string) (d : Upload.t) (l : nat)
    (session : Session) (write_ok : bool) (now : N) (w : Server)
    : Server * list Emit :=
  let p := chunkPath (Upload.transferId d) (Upload.chunkIndex d) in
  if write_ok then
    let buffer := Upload.chunk d in
    let session1 :=
      push_chunk
        (Chunk.mk (Upload.chunkIndex d) p (N.of_nat (length buffer)) now)
        session in
    let w1 := store_session l session1 (set_files (<[p := buffer]> (files w)) w) in
    (w1,
     match receiver session1 with
     | Some r =>
         if truthy (receiver session1) then
           [io_to_emit r
              (receive_chunk (Upload.chunk d) (Upload.chunkIndex d)
                 (Upload.totalChunks d) (Upload.fileName d)
                 (Upload.fileSize d) (Upload.fileType d))]
         else []
     | None => []
     end ++ [socket_emit sid (chunk_uploaded (Upload.chunkIndex d))])
  else
    (store_session l session w,
     [socket_emit sid (error CHUNK_SAVE_ERROR (Some (Upload.chunkIndex d)))]).

(** [socket.on('upload-chunk', ...)]; [now_info] and [now_meta] are the two
    clock readings of the handler. *)
Definition on_upload_chunk (sid : string) (d : Upload.t) (write_ok : bool)
    (now_info now_meta : N) (w : Server) : Server * list Emit :=
  match get_session w (Upload.transferId d) with
  | None => (w, [socket_emit sid (error SESSION_NOT_FOUND None)])
  | Some (l, session) =>
      if bool_decide (sender session ≠ sid) then
        (w, [socket_emit sid (error UNAUTHORIZED None)])
      else
        save_and_relay sid d l (store_file_info d now_info session) write_ok
          now_meta w
  end.

(** [socket.on('upload-complete', ...)]. *)
Definition on_upload_complete (sid tid : string) (now : N) (w : Server)
    : Server * list Emit :=
  match get_session w tid with
  | None => (w, [socket_emit sid (error SESSION_NOT_FOUND None)])
  | Some (l, session) =>
      let session1 := set_status_completedAt completed (Some now) session in
      let w1 := logActivity COMPLETE tid sid (store_session l session1 w) in
      (set_timers (timers w1 ++ [(tid, config.CLEANUP_INTERVAL)]) w1,
       match receiver session1 with
       | Some r =>
           if truthy (receiver session1) then
             [io_to_emit r (transfer_complete tid (fileInfo session1))]
           else []
       | None => []
       end)
  end.

(** [socket.on('get-status', ...)];
    [session.fileInfo?.totalChunks || 0] is [0] without file info. *)
Definition on_get_status (sid tid : string) (w : Server) : Server * list Emit :=
  match get_session w tid with
  | None => (w, [socket_emit sid status_response_not_found])
  | Some (_, session) =>
      (w,
       [socket_emit sid
          (status_response (status session) (fileInfo session)
             (length (chunks session))
             (from_option totalChunks 0 (fileInfo session)))])
  end.

(** [socket.on('disconnect', ...)]. *)
Definition on_disconnect (sid : string) (w : Server) : Server * list Emit :=
  let '(w1, out) :=
    match activeConnections w !! sid with
    | Some conn =>
        match Connection.transferId conn with
        | Some tid =>
            if truthy (Connection.transferId conn) then
              match get_session w tid with
              | Some (_, session) =>
                  let otherParty :=
                    if bool_decide (sender session = sid) then receiver session
                    else Some (sender session) in
                  (logActivity DISCONNECT tid sid w,
                   match otherParty with
                   | Some o =>
                       if truthy otherParty then
                         [io_to_emit o
                            (peer_disconnected tid (Connection.role conn))]
                       else []
                   | None => []
                   end)
              | None => (w, [])
              end
            else (w, [])
        | None => (w, [])
        end
    | None => (w, [])
    end in
  (set_activeConnections (delete sid (activeConnections w1)) w1, out).

(** The [for (const chunk of session.chunks)] loop of [cleanupTransfer]:
    [unlink_fails i] tells whether the [i]-th [fs.unlink] call rejects, in
    which case the error is caught and the loop goes on. *)
Fixpoint unlink_chunks (unlink_fails : nat → bool) (i : nat)
    (cs : list Chunk.t) (fs : gmap string (list Byte.byte))
    : gmap string (list Byte.byte) :=
  match cs with
  | [] => fs
  | c :: cs' =>
      unlink_chunks unlink_fails (S i) cs'
        (if unlink_fails i then fs else delete (Chunk.path c) fs)
  end.

(** [cleanupTransfer(transferId)]. *)
Definition cleanupTransfer (tid : string) (unlink_fails : nat → bool)
    (w : Server) : Server :=
  match get_session w tid with
  | None => w
  | Some (_, session) =>
      set_transferSessions (delete tid (transferSessions w))
        (set_files (unlink_chunks unlink_fails 0 (chunks session) (files w)) w)
  end.

(** ** Events and runs *)

(** What the server reacts to: the socket events, with the answers of the
    environment, and a [cleanupTransfer] call (from the timer set at
    completion or from a termination signal). *)
Inductive Event :=
| Connect (sid : string) (now : N)
| CreateTransfer (sid tid : string) (now : N)
| JoinTransfer (sid tid : string)
| UploadChunk (sid : string) (d : Upload.t) (write_ok : bool)
    (now_info now_meta : N)
| UploadComplete (sid tid : string) (now : N)
| GetStatus (sid tid : string)
| Disconnect (sid : string)
| Cleanup (tid : string) (unlink_fails : nat → bool).

Definition handle (w : Server) (e : Event) : Server * list Emit :=
  match e with
  | Connect sid now => on_connection sid now w
  | CreateTransfer sid tid now => on_create_transfer sid tid now w
  | JoinTransfer sid tid => on_join_transfer sid tid w
  | UploadChunk sid d write_ok now_info now_meta =>
      on_upload_chunk sid d write_ok now_info now_meta w
  | UploadComplete sid tid now => on_upload_complete sid tid now w
  | GetStatus sid tid => on_get_status sid tid w
  | Disconnect sid => on_disconnect sid w
  | Cleanup tid unlink_fails => (cleanupTransfer tid unlink_fails w, [])
  end.

(** The state after a sequence of events, with everything emitted. *)
Fixpoint run (w : Server) (es : list Event) : Server * list Emit :=
  match es with
  | [] => (w, [])
  | e :: es' =>
      let '(w1, out1) := handle w e in
      let '(w2, out2) := run w1 es' in
      (w2, out1 ++ out2)
  end.

End Handlers.

Local Close Scope N_scope.

(** ** What one event does to a session object *)

(** The position of a status in the state diagram. *)
Definition rank (st : Status) : nat :=
  match st with
  | waiting => 0
  | connected => 1
  | uploading => 2
  | completed => 3
  end.

(** The metadata pushed for an upload whose write succeeded. *)
Definition chunk_meta (env_TEMP_DIR : option string) (d : Upload.t) (now : N)
    : Chunk.t :=
  Chunk.mk (Upload.chunkIndex d)
    (chunkPath env_TEMP_DIR (Upload.transferId d) (Upload.chunkIndex d))
    (N.of_nat (length (Upload.chunk d))) now.

(** The assignments an event can make to the session object at address [l],
    whose contents are [s] when the event arrives in state [w]. *)
Inductive session_step (env_TEMP_DIR : option string) (w : Server) (l : nat)
    (s : Session) : Event → Session → Prop :=
| step_none e : session_step env_TEMP_DIR w l s e s
| step_join sid tid :
    transferSessions w !! tid = Some l →
    truthy (receiver s) = false →
    session_step env_TEMP_DIR w l s (JoinTransfer sid tid)
      (set_receiver_status (Some sid) connected s)
| step_upload_saved sid d now_info now_meta :
    transferSessions w !! Upload.transferId d = Some l →
    sender s = sid →
    session_step env_TEMP_DIR w l s (UploadChunk sid d true now_info now_meta)
      (push_chunk (chunk_meta env_TEMP_DIR d now_meta)
         (store_file_info d now_info s))
| step_upload_failed sid d now_info now_meta :
    transferSessions w !! Upload.transferId d = Some l →
    sender s = sid →
    session_step env_TEMP_DIR w l s (UploadChunk sid d false now_info now_meta)
      (store_file_info d now_info s)
| step_complete sid tid now :
    transferSessions w !! tid = Some l →
    session_step env_TEMP_DIR w l s (UploadComplete sid tid now)
      (set_status_completedAt completed (Some now) s).

(** The payload of the receive-chunk event built from an upload. *)
Definition relay_of (d : Upload.t) : Payload :=
  receive_chunk (Upload.chunk d) (Upload.chunkIndex d) (Upload.totalChunks d)
    (Upload.fileName d) (Upload.fileSize d) (Upload.fileType d).

Definition payload (m : Emit) : Payload :=
  match m with
  | socket_emit _ p => p
  | io_to_emit _ p => p
  end.

Definition is_receive_chunk (p : Payload) : bool :=
  match p with
  | receive_chunk _ _ _ _ _ _ => true
  | _ => false
  end.

(** The file info stored by an upload with index 0. *)
Definition info_of (d : Upload.t) (now : N) : FileInfo :=
  mkFileInfo (Upload.fileName d) (Upload.fileSize d) (Upload.fileType d)
    (Upload.totalChunks d) now.

(** ** Concrete states and events used as test inputs *)

Definition first_chunk : Upload.t :=
  Upload.mk "t1" [Byte.x68; Byte.x69] 0%N 2%N "a.txt" 20%N "text/plain".

Definition second_chunk : Upload.t :=
  Upload.mk "t1" [Byte.x21] 1%N 2%N "a.txt" 20%N "text/plain".

(** Two sockets connected, the first one has created transfer [t1]. *)
Definition w_created : Server :=
  (run None initial
     [Connect "s" 1%N; Connect "r" 2%N; CreateTransfer "s" "t1" 3%N]).1.

(** The same with the second socket joined as receiver. *)
Definition w_joined : Server := (handle None w_created (JoinTransfer "r" "t1")).1.

Definition s_created : Session :=
  mkSession "t1" "s" None [] None 3%N waiting None.

(** The sender has uploaded the first chunk before anyone joined. *)
Definition w_uploading : Server :=
  (handle None w_created (UploadChunk "s" first_chunk true 4%N 5%N)).1.

(** The first chunk could not be saved. *)
Definition w_save_failed : Server :=
  (handle None w_created (UploadChunk "s" first_chunk false 4%N 5%N)).1.

(** Both chunks uploaded and relayed. *)
Definition w_two_chunks : Server :=
  (run None w_joined
     [UploadChunk "s" first_chunk true 4%N 5%N;
      UploadChunk "s" second_chunk true 6%N 7%N]).1.

Definition s_joined : Session :=
  mkSession "t1" "s" (Some "r") [] None 3%N connected None.

(** The events that assign to the session at [l] a status earlier in the
    diagram than the one it has: a join accepted once the upload has
    started, and a chunk with index 0 accepted after completion. *)
Definition regresses (l : nat) (w : Server) (e : Event) : bool :=
  match e with
  | JoinTransfer sid tid =>
      match get_session w tid with
      | Some (l', s) =>
          bool_decide (l' = l) && negb (truthy (receiver s)) &&
          (2 <=? rank (status s))
      | None => false
      end
  | UploadChunk sid d _ _ _ =>
      match get_session w (Upload.transferId d) with
      | Some (l', s) =>
          bool_decide (l' = l) && bool_decide (sender s = sid) &&
          (Upload.chunkIndex d =? 0)%N && (3 <=? rank (status s))
      | None => false
      end
  | _ => false
  end.

(** The events that pass the checks of the upload-chunk handler for the
    session at [l] with chunk index 0. *)
Definition accepts_first_chunk (l : nat) (w : Server) (e : Event) : bool :=
  match e with
  | UploadChunk sid d _ _ _ =>
      match get_session w (Upload.transferId d) with
      | Some (l', s) =>
          bool_decide (l' = l) && bool_decide (sender s = sid) &&
          (Upload.chunkIndex d =? 0)%N
      | None => false
      end
  | _ => false
  end.


(** ** The upload-chunk handler across its await *)

(** The upload-chunk handler is an async function: it runs up to
    [await fs.writeFile], and goes on when the write has settled, after
    whatever events were handled in the meantime.  A suspended handler
    holds its socket, the data of its event and the session object that it
    looked up. *)
Record Pending := mkPending {
  pending_socket : string;
  pending_data : Upload.t;
  pending_session : nat
}.

(** What the event loop runs: an event handled to completion as by
    [handle], an upload-chunk event whose handler runs to its await, and
    the settling of the write awaited by the [k]-th suspended handler. *)
Inductive Task :=
| handles (e : Event)
| upload_arrives (sid : string) (d : Upload.t) (now_info : N)
| write_settles (k : nat) (write_ok : bool) (now_meta : N).

Section Interleaving.

Variable env_TEMP_DIR : option string.

(** The upload-chunk handler from its start to the await: the two checks
    and the [if (chunkIndex === 0)] block. *)
Definition upload_chunk_begin (sid : string) (d : Upload.t) (now_info : N)
    (w : Server) : Server * list Emit * option Pending :=
  match get_session w (Upload.transferId d) with
  | None => (w, [socket_emit sid (error SESSION_NOT_FOUND None)], None)
  | Some (l, session) =>
      if bool_decide (sender session ≠ sid) then
        (w, [socket_emit sid (error UNAUTHORIZED None)], None)
      else
        (store_session l (store_file_info d now_info session) w, [],
         Some (mkPending sid d l))
  end.

(** The upload-chunk handler from the await on: the rest of the [try]
    block, or the [catch] clause, run on the session object as it is when
    the write has settled. *)
Definition upload_chunk_resume (p : Pending) (write_ok : bool) (now_meta : N)
    (w : Server) : Server * list Emit :=
  match heap w !! pending_session p with
  | Some session =>
      save_and_relay env_TEMP_DIR (pending_socket p) (pending_data p)
        (pending_session p) session write_ok now_meta w
  | None => (w, [])
  end.

(** One task of the event loop, on the server state and the list of the
    suspended upload handlers. *)
Definition step (st : Server * list Pending) (t : Task)
    : (Server * list Pending) * list Emit :=
  match t with
  | handles e =>
      let '(w', out) := handle env_TEMP_DIR st.1 e in ((w', st.2), out)
  | upload_arrives sid d now_info =>
      let '(w', out, p) := upload_chunk_begin sid d now_info st.1 in
      ((w', st.2 ++ option_list p), out)
  | write_settles k write_ok now_meta =>
      match st.2 !! k with
      | Some p =>
          let '(w', out) := upload_chunk_resume p write_ok now_meta st.1 in
          ((w', delete k st.2), out)
      | None => (st, [])
      end
  end.

Fixpoint steps (st : Server * list Pending) (ts : list Task)
    : (Server * list Pending) * list Emit :=
  match ts with
  | [] => (st, [])
  | t :: ts' =>
      let '(st1, out1) := step st t in
      let '(st2, out2) := steps st1 ts' in
      (st2, out1 ++ out2)
  end.

(** The storage key as a function of the text that the template literal
    prints for [chunkIndex]: the decimal digits of a non-negative integer
    below 10^21, and a string as it is, since the handler does not check
    the type of the field. *)
Definition chunkKey (tid text : string) : string :=
  path.join (config.TEMP_DIR env_TEMP_DIR) (tid +:+ "_chunk_" +:+ text).

End Interleaving.

(** ** The termination handlers *)

(** The loop of the SIGTERM and SIGINT handlers,
    [for (const transferId of transferSessions.keys())
       await cleanupTransfer(transferId)],
    before the server is closed and the process exits.  [keys] is the order
    in which the [Map] enumerates its keys; [unlink_fails tid i] tells
    whether the [i]-th unlink of the cleanup of [tid] rejects. *)
Definition shutdown (keys : list string) (unlink_fails : string → nat → bool)
    (w : Server) : Server :=
  foldl (λ w' tid, cleanupTransfer tid (unlink_fails tid) w') w keys.

(** ** Predicates on sessions, events and log entries *)

(** What the status of a session says about its other fields. *)
Definition coherent (s : Session) : Prop :=
  match status s with
  | waiting => receiver s = None ∧ fileInfo s = None
  | connected => is_Some (receiver s)
  | uploading => is_Some (fileInfo s)
  | completed => is_Some (completedAt s)
  end.

(** Every chunk entry of the session holds the storage key of its index
    under the transferId of the session. *)
Definition keyed (env_TEMP_DIR : option string) (s : Session) : Prop :=
  ∀ c, c ∈ chunks s →
    Chunk.path c = chunkPath env_TEMP_DIR (transferId s) (Chunk.index c).

(** The disconnect event of socket [sid]. *)
Definition is_disconnect_of (sid : string) (e : Event) : bool :=
  match e with
  | Disconnect sid' => String.eqb sid' sid
  | _ => false
  end.

(** The log entry [x] names the action, the socket and, but for a
    disconnect, the transferId of event [e]. *)
Definition logged_by (x : LogEntry) (e : Event) : bool :=
  match log_action x, e with
  | CREATE, CreateTransfer sid tid _ =>
      String.eqb (log_transferId x) tid && String.eqb (log_socketId x) sid
  | JOIN, JoinTransfer sid tid =>
      String.eqb (log_transferId x) tid && String.eqb (log_socketId x) sid
  | COMPLETE, UploadComplete sid tid _ =>
      String.eqb (log_transferId x) tid && String.eqb (log_socketId x) sid
  | DISCONNECT, Disconnect sid => String.eqb (log_socketId x) sid
  | _, _ => false
  end.

(** The events that can write or remove the file stored under key [p]:
    a saved upload of a chunk with that key, and any cleanup. *)
Definition touches (env_TEMP_DIR : option string) (p : string) (e : Event)
    : bool :=
  match e with
  | UploadChunk _ d true _ _ =>
      String.eqb
        (chunkPath env_TEMP_DIR (Upload.transferId d) (Upload.chunkIndex d)) p
  | Cleanup _ _ => true
  | _ => false
  end.

(** The state invariant of the server: the registry names allocated
    objects, under the transferId they were created with, and every session
    object is [keyed] and [coherent]. *)
Definition well_formed (env_TEMP_DIR : option string) (w : Server) : Prop :=
  (∀ tid l, transferSessions w !! tid = Some l → l < length (heap w)) ∧
  (∀ tid l s,
     transferSessions w !! tid = Some l → heap w !! l = Some s →
     transferId s = tid) ∧
  (∀ l s, heap w !! l = Some s → keyed env_TEMP_DIR s ∧ coherent s).

(** Every registered transferId is mapped to an allocated session object. *)
Definition allocated (w : Server) : Prop :=
  ∀ tid l, transferSessions w !! tid = Some l → l < length (heap w).

(** No event of a run is one of [bad] in the state in which it arrives. *)
Fixpoint avoids (env_TEMP_DIR : option string)
    (bad : Server → Event → bool) (w : Server) (es : list Event) : bool :=
  match es with
  | [] => true
  | e :: es' =>
      negb (bad w e) && avoids env_TEMP_DIR bad (handle env_TEMP_DIR w e).1 es'
  end.

Section Sessions.

Variable env : option string.

Lemma get_session_Some w tid l s :
  get_session w tid = Some (l, s) ↔
  transferSessions w !! tid = Some l ∧ heap w !! l = Some s.
Proof.
  unfold get_session. split.
  - destruct (transferSessions w !! tid) as [l'|]; simpl; [|done].
    destruct (heap w !! l') as [s'|] eqn:Hs; simpl; [|done].
    intros [= <- <-]. done.
  - intros [-> Hs]. simpl. by rewrite Hs.
Qed.

(** Every event leaves a session object in the heap, changed in one of the
    ways of [session_step]. *)
Lemma heap_step w e l s :
  heap w !! l = Some s →
  ∃ s', heap (handle env w e).1 !! l = Some s' ∧ session_step env w l s e s'.
Proof.
  intros Hl.
  assert (Hlen : (l < length (heap w))%nat) by (by eapply lookup_lt_Some).
  destruct e as [sid now|sid tid now|sid tid|sid d ok n1 n2|sid tid now|sid tid
                |sid|tid fails]; simpl.
  - exists s. split; [done|constructor].
  - exists s. split; [|constructor].
    unfold on_create_transfer. simpl.
    destruct (activeConnections w !! sid); simpl; by rewrite lookup_app_l.
  - unfold on_join_transfer.
    destruct (get_session w tid) as [[l0 s0]|] eqn:Hg; simpl;
      [|exists s; split; [done|constructor]].
    apply get_session_Some in Hg as [Ht Hs0].
    destruct (truthy (receiver s0)) eqn:Hr; simpl;
      [exists s; split; [done|constructor]|].
    destruct (decide (l0 = l)) as [->|Hne].
    + rewrite Hl in Hs0. injection Hs0 as <-.
      eexists. split; [|by apply step_join].
      destruct (activeConnections w !! sid); simpl;
        by apply list_lookup_insert_eq.
    + exists s. split; [|constructor].
      destruct (activeConnections w !! sid); simpl;
        by rewrite list_lookup_insert_ne.
  - unfold on_upload_chunk.
    destruct (get_session w (Upload.transferId d)) as [[l0 s0]|] eqn:Hg; simpl;
      [|exists s; split; [done|constructor]].
    apply get_session_Some in Hg as [Ht Hs0].
    case_bool_decide as Hsn; simpl; [exists s; split; [done|constructor]|].
    assert (sender s0 = sid) as Hsid by (by destruct (decide (sender s0 = sid))).
    unfold save_and_relay.
    destruct (decide (l0 = l)) as [->|Hne].
    + rewrite Hl in Hs0. injection Hs0 as <-.
      destruct ok; simpl.
      * eexists. split; [by apply list_lookup_insert_eq|].
        by apply step_upload_saved.
      * eexists. split; [by apply list_lookup_insert_eq|].
        by apply step_upload_failed.
    + exists s. split; [|constructor].
      destruct ok; simpl; by rewrite list_lookup_insert_ne.
  - unfold on_upload_complete.
    destruct (get_session w tid) as [[l0 s0]|] eqn:Hg; simpl;
      [|exists s; split; [done|constructor]].
    apply get_session_Some in Hg as [Ht Hs0].
    destruct (decide (l0 = l)) as [->|Hne].
    + rewrite Hl in Hs0. injection Hs0 as <-.
      eexists. split; [by apply list_lookup_insert_eq|by apply step_complete].
    + exists s. split; [|constructor]. by rewrite list_lookup_insert_ne.
  - exists s. split; [|constructor].
    unfold on_get_status. by destruct (get_session w tid) as [[??]|].
  - exists s. split; [|constructor].
    unfold on_disconnect.
    destruct (activeConnections w !! sid) as [c|]; [|done].
    destruct (Connection.transferId c) as [tid|]; [|done].
    destruct (truthy (Some tid)); [|done].
    by destruct (get_session w tid) as [[??]|].
  - exists s. split; [|constructor].
    unfold cleanupTransfer. by destruct (get_session w tid) as [[??]|].
Qed.

Lemma initial_allocated : allocated initial.
Proof. intros tid l. unfold initial. simpl. by rewrite lookup_empty. Qed.

(** The registry never points outside the heap, so that the lookup of a
    registered transferId always finds its session object. *)
Lemma handle_allocated w e : allocated w → allocated (handle env w e).1.
Proof.
  intros Hw.
  destruct e as [sid now|sid tid now|sid tid|sid d ok n1 n2|sid tid now|sid tid
                |sid|tid fails]; simpl.
  - done.
  - unfold on_create_transfer. simpl.
    assert (Hnew : ∀ tid0 l0,
      <[tid:=length (heap w)]> (transferSessions w) !! tid0 = Some l0 →
      l0 < length (heap w ++ [mkSession tid sid None [] None now waiting None])).
    { intros tid0 l0. rewrite length_app. simpl.
      destruct (decide (tid = tid0)) as [->|Hne].
      - rewrite lookup_insert_eq. intros [= <-]. lia.
      - rewrite lookup_insert_ne by done. intros Hl%Hw. lia. }
    by destruct (activeConnections w !! sid).
  - unfold on_join_transfer.
    destruct (get_session w tid) as [[l0 s0]|]; [|done].
    destruct (truthy (receiver s0)); [done|]. simpl.
    destruct (activeConnections w !! sid); intros tid0 l1; simpl;
      rewrite length_insert; apply Hw.
  - unfold on_upload_chunk.
    destruct (get_session w (Upload.transferId d)) as [[l0 s0]|]; [|done].
    case_bool_decide; [done|]. unfold save_and_relay.
    destruct ok; intros tid0 l1; simpl; rewrite length_insert; apply Hw.
  - unfold on_upload_complete.
    destruct (get_session w tid) as [[l0 s0]|]; [|done].
    intros tid0 l1. simpl. rewrite length_insert. apply Hw.
  - unfold on_get_status. by destruct (get_session w tid) as [[??]|].
  - unfold on_disconnect.
    destruct (activeConnections w !! sid) as [c|]; [|done].
    destruct (Connection.transferId c) as [tid|]; [|done].
    destruct (truthy (Some tid)); [|done].
    by destruct (get_session w tid) as [[??]|].
  - unfold cleanupTransfer.
    destruct (get_session w tid) as [[l0 s0]|]; [|done].
    intros tid0 l1. simpl. destruct (decide (tid = tid0)) as [->|Hne].
    + by rewrite lookup_delete_eq.
    + rewrite lookup_delete_ne by done. apply Hw.
Qed.

Lemma allocated_get_session w tid l :
  allocated w → transferSessions w !! tid = Some l →
  ∃ s, get_session w tid = Some (l, s).
Proof.
  intros Hw Ht. destruct (lookup_lt_is_Some_2 (heap w) l (Hw _ _ Ht)) as [s Hs].
  exists s. by apply get_session_Some.
Qed.

End Sessions.

Section Runs.

Variable env : option string.

Lemma run_app w es1 es2 :
  run env w (es1 ++ es2) =
  ((run env (run env w es1).1 es2).1,
   (run env w es1).2 ++ (run env (run env w es1).1 es2).2).
Proof.
  revert w. induction es1 as [|e es1 IH]; intros w; simpl.
  - by destruct (run env w es2).
  - destruct (handle env w e) as [w1 out1]. rewrite IH.
    destruct (run env w1 es1) as [w2 out2]; simpl.
    destruct (run env w2 es2) as [w3 out3]; simpl.
    by rewrite app_assoc.
Qed.

Lemma avoids_nothing w es : avoids env (λ _ _, false) w es = true.
Proof. revert w. induction es as [|e es IH]; intros w; simpl; auto. Qed.

(** A reflexive and transitive relation between the contents of a session
    object that every step outside [bad] respects is respected by every run
    that avoids [bad]. *)
Lemma run_session_rel (bad : Server → Event → bool) (R : relation Session)
    (l : nat) :
  (∀ s, R s s) →
  (∀ a b c, R a b → R b c → R a c) →
  (∀ w e s s',
     heap w !! l = Some s → bad w e = false → session_step env w l s e s' →
     R s s') →
  ∀ es w s,
    heap w !! l = Some s → avoids env bad w es = true →
    ∃ s', heap (run env w es).1 !! l = Some s' ∧ R s s'.
Proof.
  intros Hrefl Htrans Hstep es.
  induction es as [|e es IH]; intros w s Hl Hav; simpl in *.
  - eauto.
  - apply andb_true_iff in Hav as [Hbad%negb_true_iff Hav].
    destruct (heap_step env w e l s Hl) as (s1 & Hl1 & Hs1).
    destruct (handle env w e) as [w1 out1]; simpl in *.
    destruct (IH w1 s1 Hl1 Hav) as (s2 & Hl2 & HR).
    destruct (run env w1 es) as [w2 out2]; simpl in *.
    exists s2. split; [done|]. eapply Htrans; [|done]. eauto.
Qed.

End Runs.

(** ** Strings and paths *)

Section Strings.

Implicit Types (s t u : string) (c : ascii).

Lemma app_cons c s t : String c s +:+ t = String c (s +:+ t).
Proof. reflexivity. Qed.

Lemma app_empty_r s : s +:+ "" = s.
Proof. induction s as [|c s IH]; [done|]. by rewrite app_cons, IH. Qed.

Lemma app_assoc_str s t u : (s +:+ t) +:+ u = s +:+ t +:+ u.
Proof. induction s as [|c s IH]; [done|]. by rewrite !app_cons, IH. Qed.

Lemma app_eq_empty s t : s +:+ t = "" → s = "" ∧ t = "".
Proof. destruct s; [done|]. by rewrite app_cons. Qed.

Lemma to_list_app s t :
  list_ascii_of_string (s +:+ t) =
  list_ascii_of_string s ++ list_ascii_of_string t.
Proof. induction s as [|c s IH]; [done|]. rewrite app_cons. simpl. by f_equal. Qed.

Lemma to_list_inj s t : list_ascii_of_string s = list_ascii_of_string t → s = t.
Proof.
  intros H. rewrite <- (string_of_list_ascii_of_string s),
    <- (string_of_list_ascii_of_string t). by rewrite H.
Qed.

Lemma contains_elem_of c s :
  Str.contains c s = false ↔ c ∉ list_ascii_of_string s.
Proof.
  induction s as [|a s IH]; simpl.
  - split; [intros _; apply not_elem_of_nil|done].
  - rewrite orb_false_iff, IH, not_elem_of_cons, Ascii.eqb_neq.
    split; intros [H1 H2]; split; congruence.
Qed.

Lemma contains_app c s t :
  Str.contains c (s +:+ t) = Str.contains c s || Str.contains c t.
Proof.
  induction s as [|a s IH]; [done|]. rewrite app_cons. simpl.
  by rewrite IH, orb_assoc.
Qed.

(** A list splits in one way only around the last occurrence of an
    element. *)
Lemma split_at_last {A} (x : A) (l1 l2 r1 r2 : list A) :
  x ∉ r1 → x ∉ r2 → l1 ++ x :: r1 = l2 ++ x :: r2 → l1 = l2 ∧ r1 = r2.
Proof.
  revert l2. induction l1 as [|a l1 IH]; intros [|b l2] H1 H2 Heq;
    simpl in Heq.
  - by injection Heq.
  - injection Heq as -> ->. exfalso. apply H1.
    apply elem_of_app. right. apply list_elem_of_here.
  - injection Heq as -> <-. exfalso. apply H2.
    apply elem_of_app. right. apply list_elem_of_here.
  - injection Heq as -> Heq. destruct (IH l2 H1 H2 Heq) as [-> ->]. done.
Qed.

Lemma of_N_digits n : Str.contains "_" (Str.of_N n) = false.
Proof.
  unfold Str.of_N. induction (N.to_uint n) as [|d IH|d IH|d IH|d IH|d IH|d IH
    |d IH|d IH|d IH|d IH]; simpl; done.
Qed.

Lemma of_N_no_sep n : Str.contains path.sep (Str.of_N n) = false.
Proof.
  unfold Str.of_N. induction (N.to_uint n) as [|d IH|d IH|d IH|d IH|d IH|d IH
    |d IH|d IH|d IH|d IH]; simpl; done.
Qed.

Lemma of_N_inj n m : Str.of_N n = Str.of_N m → n = m.
Proof.
  unfold Str.of_N. intros H. apply DecimalN.Unsigned.to_uint_inj.
  assert (Some (N.to_uint n) = Some (N.to_uint m)) as [= ->]; [|done].
  by rewrite <- !NilEmpty.usu, H.
Qed.

(** The template literal [`${transferId}_chunk_${chunkIndex}`] determines
    both of its arguments. *)
Lemma template_inj t1 n1 t2 n2 :
  t1 +:+ "_chunk_" +:+ Str.of_N n1 = t2 +:+ "_chunk_" +:+ Str.of_N n2 →
  t1 = t2 ∧ n1 = n2.
Proof.
  intros H. apply (f_equal list_ascii_of_string) in H.
  assert (Hsplit : ∀ t d,
    list_ascii_of_string (t +:+ "_chunk_" +:+ d) =
    (list_ascii_of_string t ++ list_ascii_of_string "_chunk") ++
    "_"%char :: list_ascii_of_string d).
  { intros t d. rewrite !to_list_app, <- app_assoc. reflexivity. }
  rewrite !Hsplit in H.
  apply split_at_last in H as [H1 H2];
    [|by apply contains_elem_of, of_N_digits..].
  apply app_inv_tail in H1.
  split; [by apply to_list_inj|by apply of_N_inj, to_list_inj].
Qed.

(** The same for any text in the place of the index that has no
    underscore. *)
Lemma template_text_inj t1 x1 t2 x2 :
  Str.contains "_" x1 = false →
  Str.contains "_" x2 = false →
  t1 +:+ "_chunk_" +:+ x1 = t2 +:+ "_chunk_" +:+ x2 →
  t1 = t2 ∧ x1 = x2.
Proof.
  intros Hx1 Hx2 H. apply (f_equal list_ascii_of_string) in H.
  assert (Hsplit : ∀ t d,
    list_ascii_of_string (t +:+ "_chunk_" +:+ d) =
    (list_ascii_of_string t ++ list_ascii_of_string "_chunk") ++
    "_"%char :: list_ascii_of_string d).
  { intros t d. rewrite !to_list_app, <- app_assoc. reflexivity. }
  rewrite !Hsplit in H.
  apply split_at_last in H as [H1 H2]; [|by apply contains_elem_of..].
  apply app_inv_tail in H1.
  split; by apply to_list_inj.
Qed.

Lemma split_nonempty c s : Str.split c s ≠ [].
Proof.
  destruct s as [|a s]; simpl; [done|].
  destruct (Ascii.eqb a c); [done|]. by destruct (Str.split c s).
Qed.

Lemma split_no_sep c s : Str.contains c s = false → Str.split c s = [s].
Proof.
  induction s as [|a s IH]; simpl; [done|].
  intros [Ha Hs]%orb_false_iff. rewrite Ha, IH; done.
Qed.

Lemma split_app_sep c s t :
  Str.split c (s +:+ String c t) = Str.split c s ++ Str.split c t.
Proof.
  induction s as [|a s IH].
  - simpl. change ("" +:+ String c t) with (String c t). simpl.
    by rewrite Ascii.eqb_refl.
  - rewrite app_cons. simpl. destruct (Ascii.eqb a c); rewrite IH; [done|].
    pose proof (split_nonempty c s). by destruct (Str.split c s).
Qed.

Lemma last_char_app s t : t ≠ "" → Str.last_char (s +:+ t) = Str.last_char t.
Proof.
  intros Ht. induction s as [|a s IH]; [done|]. rewrite app_cons. simpl.
  rewrite IH. destruct (s +:+ t) eqn:Hst; [|done].
  by apply app_eq_empty in Hst as [_ ?].
Qed.

Lemma last_char_contains c s : Str.last_char s = Some c → Str.contains c s = true.
Proof.
  induction s as [|a s IH]; simpl; [done|].
  destruct s as [|b s].
  - intros [= ->]. by rewrite Ascii.eqb_refl.
  - intros H. rewrite (IH H). apply orb_true_r.
Qed.

Lemma first_char_app s t : s ≠ "" → Str.first_char (s +:+ t) = Str.first_char s.
Proof. by destruct s. Qed.

Lemma join_snoc sep (segs : list string) :
  ∃ pre, ∀ seg, Str.join sep (segs ++ [seg]) = pre +:+ seg.
Proof.
  induction segs as [|x segs (pre & IH)].
  - by exists "".
  - exists (x +:+ sep +:+ pre). intros seg. simpl.
    destruct (segs ++ [seg]) as [|y rest] eqn:Hs;
      [by destruct segs|].
    rewrite <- Hs, IH. by rewrite !app_assoc_str.
Qed.

Lemma normalize_segments_app allow stack (xs ys : list string) :
  path.normalize_segments allow stack (xs ++ ys) =
  path.normalize_segments allow
    (rev (path.normalize_segments allow stack xs)) ys.
Proof.
  revert stack. induction xs as [|x xs IH]; intros stack; simpl.
  - by rewrite rev_involutive.
  - destruct (String.eqb x "" || String.eqb x "."); [apply IH|].
    destruct (String.eqb x ".."); [|apply IH].
    destruct stack as [|top below]; [apply IH|].
    destruct (String.eqb top ".."); apply IH.
Qed.

(** A last argument that is one ordinary segment is the end of the joined
    path, after a prefix that depends on the first argument only. *)
Lemma path_join_segment a :
  a ≠ "" →
  ∃ pre, ∀ seg,
    Str.contains path.sep seg = false →
    seg ≠ "" → seg ≠ "." → seg ≠ ".." →
    path.join a seg = pre +:+ seg.
Proof.
  intros Ha.
  set (abs := bool_decide (Str.first_char a = Some path.sep)).
  destruct (join_snoc "/"
    (rev (rev (path.normalize_segments (negb abs) [] (Str.split path.sep a)))))
    as (pre & Hpre).
  exists ((if abs then "/" else "") +:+ pre). intros seg Hsep H0 H1 H2.
  unfold path.join. simpl.
  rewrite !filter_cons, filter_nil.
  rewrite decide_True by done. rewrite decide_True by done. simpl.
  assert (Hj : a +:+ "/" +:+ seg ≠ "").
  { intros [? _]%app_eq_empty. done. }
  apply String.eqb_neq in Hj as Hj'. rewrite Hj'.
  unfold path.normalize. rewrite Hj'.
  rewrite first_char_app by done. fold abs.
  replace (Str.last_char (a +:+ "/" +:+ seg)) with (Str.last_char seg)
    by (rewrite <- app_assoc_str; by rewrite last_char_app).
  change ("/" +:+ seg) with (String path.sep seg).
  rewrite split_app_sep, (split_no_sep _ seg) by done.
  rewrite normalize_segments_app. simpl.
  apply String.eqb_neq in H0 as H0'. apply String.eqb_neq in H1 as ->.
  apply String.eqb_neq in H2 as ->. rewrite H0'. simpl.
  rewrite Hpre.
  assert (Hb : pre +:+ seg ≠ "") by (by intros [_ ?]%app_eq_empty).
  apply String.eqb_neq in Hb as ->.
  rewrite bool_decide_false.
  - by rewrite app_empty_r, app_assoc_str.
  - intros Hl. apply last_char_contains in Hl. congruence.
Qed.

Lemma TEMP_DIR_nonempty env : config.TEMP_DIR env ≠ "".
Proof.
  destruct env as [d|]; simpl; [|done].
  destruct (String.eqb d "") eqn:Hd; simpl; [done|].
  by apply String.eqb_neq.
Qed.

End Strings.

(** ** The properties of the protocol *)

Section Protocol.

Variable env : option string.

(** C8.  An upload-chunk event on an existing session from a socket that is
    not the session's sender is answered with an UNAUTHORIZED error to that
    socket and changes nothing: the whole server state, and with it the
    chunk list, the stored files, the status and the file info, is the one
    before the event, and nothing is relayed. *)
Theorem upload_chunk_unauthorized w sid d write_ok now_info now_meta l s :
  get_session w (Upload.transferId d) = Some (l, s) →
  sender s ≠ sid →
  handle env w (UploadChunk sid d write_ok now_info now_meta) =
  (w, [socket_emit sid (error UNAUTHORIZED None)]).
Proof.
  intros Hg Hne. simpl. unfold on_upload_chunk. rewrite Hg.
  by rewrite bool_decide_true.
Qed.

(** C7.  On a session that has a receiver, a join from any socket, now or
    after any further events, is answered with RECEIVER_EXISTS to the caller
    and changes nothing in the server state; and whatever happens afterwards
    the session object keeps the receiver it has. *)
Theorem join_receiver_exists w tid l s :
  get_session w tid = Some (l, s) →
  truthy (receiver s) = true →
  (∀ sid,
     handle env w (JoinTransfer sid tid) =
     (w, [socket_emit sid (error RECEIVER_EXISTS None)])) ∧
  (∀ es, ∃ s',
     heap (run env w es).1 !! l = Some s' ∧ receiver s' = receiver s) ∧
  (∀ es sid,
     let w' := (run env w es).1 in
     transferSessions w' !! tid = Some l →
     handle env w' (JoinTransfer sid tid) =
     (w', [socket_emit sid (error RECEIVER_EXISTS None)])).
Proof.
  intros Hg Hr.
  assert (Hkeep : ∀ es, ∃ s',
    heap (run env w es).1 !! l = Some s' ∧ receiver s' = receiver s).
  { intros es. apply get_session_Some in Hg as [_ Hl].
    destruct (run_session_rel env (λ _ _, false)
      (λ a b, truthy (receiver a) = true → receiver b = receiver a) l)
      with (es := es) (w := w) (s := s) as (s' & Hl' & HR); eauto.
    - intros a b c Hab Hbc Ha. specialize (Hab Ha).
      rewrite <- Hab in Ha. specialize (Hbc Ha). congruence.
    - intros w0 e s0 s1 _ _ Hst Ht.
      destruct Hst; simpl; try done; try congruence.
      all: unfold store_file_info; by destruct (_ =? _)%N.
    - apply avoids_nothing. }
  split; [|split; [done|]].
  - intros sid. simpl. unfold on_join_transfer. by rewrite Hg, Hr.
  - intros es sid w' Ht.
    destruct (Hkeep es) as (s' & Hl' & Hrs). fold w' in Hl'.
    assert (get_session w' tid = Some (l, s')) as Hg'
      by (by apply get_session_Some).
    simpl. unfold on_join_transfer. by rewrite Hg', Hrs, Hr.
Qed.

(** C10.  On an existing session an upload-complete event from any socket
    whatever, with no condition relating the caller to the session, sets the
    status to completed and completedAt to the clock reading, leaves the other
    fields, emits transfer-complete with the file info to the receiver when
    one is bound and nothing otherwise, and schedules the cleanup of the
    transfer after the configured interval. *)
Theorem upload_complete_any_caller w sid tid now l s :
  get_session w tid = Some (l, s) →
  ∃ w' out s',
    handle env w (UploadComplete sid tid now) = (w', out) ∧
    (∀ r, receiver s = Some r → r ≠ "" →
       out = [io_to_emit r (transfer_complete tid (fileInfo s))]) ∧
    (truthy (receiver s) = false → out = []) ∧
    heap w' !! l = Some s' ∧
    status s' = completed ∧ completedAt s' = Some now ∧
    sender s' = sender s ∧ receiver s' = receiver s ∧
    chunks s' = chunks s ∧ fileInfo s' = fileInfo s ∧
    timers w' = timers w ++ [(tid, config.CLEANUP_INTERVAL)] ∧
    activity w' = activity w ++ [mkLogEntry COMPLETE tid sid] ∧
    transferSessions w' = transferSessions w ∧ files w' = files w.
Proof.
  intros Hg. simpl. unfold on_upload_complete. rewrite Hg.
  apply get_session_Some in Hg as [_ Hl].
  eexists _, _, _. split; [reflexivity|]. simpl.
  split.
  { intros r -> Hne. simpl. by apply String.eqb_neq in Hne as ->. }
  split.
  { intros Ht. destruct (receiver s) as [r|]; [|done]. by rewrite Ht. }
  split; [apply list_lookup_insert_eq; by eapply lookup_lt_Some|].
  by repeat split.
Qed.

(** Every receive-chunk event emitted while an event is handled is the
    relay of the chunk of that very event, an upload whose write succeeded. *)
Lemma relay_origin w e m :
  m ∈ (handle env w e).2 →
  is_receive_chunk (payload m) = true →
  ∃ sid d now_info now_meta r,
    e = UploadChunk sid d true now_info now_meta ∧
    m = io_to_emit r (relay_of d).
Proof.
  destruct e as [sid now|sid tid now|sid tid|sid d ok n1 n2|sid tid now|sid tid
                |sid|tid fails]; simpl.
  - by intros ?%elem_of_nil.
  - unfold on_create_transfer. simpl.
    destruct (activeConnections w !! sid); simpl.
    + by intros ->%list_elem_of_singleton.
    + by intros ?%elem_of_nil.
  - unfold on_join_transfer.
    destruct (get_session w tid) as [[l0 s0]|]; simpl;
      [|by intros ->%list_elem_of_singleton].
    destruct (truthy (receiver s0)); simpl;
      [by intros ->%list_elem_of_singleton|].
    destruct (activeConnections w !! sid); simpl; [|by intros ?%elem_of_nil].
    by intros [->| ->%list_elem_of_singleton]%elem_of_cons.
  - unfold on_upload_chunk.
    destruct (get_session w (Upload.transferId d)) as [[l0 s0]|]; simpl;
      [|by intros ->%list_elem_of_singleton].
    case_bool_decide; simpl; [by intros ->%list_elem_of_singleton|].
    unfold save_and_relay.
    destruct ok; simpl; [|by intros ->%list_elem_of_singleton].
    replace (receiver (store_file_info d n1 s0)) with (receiver s0)
      by (unfold store_file_info; by destruct (_ =? _)%N).
    destruct (receiver s0) as [r|]; simpl;
      [|by intros ->%list_elem_of_singleton].
    destruct (negb (r =? "")%string); simpl;
      [|by intros ->%list_elem_of_singleton].
    intros [->| ->%list_elem_of_singleton]%elem_of_cons; [|done].
    intros _. by eexists _, _, _, _, _.
  - unfold on_upload_complete.
    destruct (get_session w tid) as [[l0 s0]|]; simpl;
      [|by intros ->%list_elem_of_singleton].
    destruct (receiver s0) as [r|]; simpl; [|by intros ?%elem_of_nil].
    destruct (negb (r =? "")%string); simpl; [|by intros ?%elem_of_nil].
    by intros ->%list_elem_of_singleton.
  - unfold on_get_status.
    destruct (get_session w tid) as [[l0 s0]|]; simpl;
      by intros ->%list_elem_of_singleton.
  - unfold on_disconnect.
    destruct (activeConnections w !! sid) as [c|]; simpl;
      [|by intros ?%elem_of_nil].
    destruct (Connection.transferId c) as [tid|]; simpl;
      [|by intros ?%elem_of_nil].
    destruct (negb (tid =? "")%string); simpl; [|by intros ?%elem_of_nil].
    destruct (get_session w tid) as [[l0 s0]|]; simpl;
      [|by intros ?%elem_of_nil].
    destruct (if bool_decide (sender s0 = sid) then receiver s0
              else Some (sender s0)) as [o|] eqn:Ho; simpl;
      [|by intros ?%elem_of_nil].
    destruct (negb (o =? "")%string); simpl; [|by intros ?%elem_of_nil].
    by intros ->%list_elem_of_singleton.
  - by intros ?%elem_of_nil.
Qed.

Lemma run_relay_origin es w m :
  m ∈ (run env w es).2 →
  is_receive_chunk (payload m) = true →
  ∃ sid d now_info now_meta r,
    UploadChunk sid d true now_info now_meta ∈ es ∧
    m = io_to_emit r (relay_of d).
Proof.
  revert w. induction es as [|e es IH]; intros w; simpl.
  - by intros ?%elem_of_nil.
  - destruct (handle env w e) as [w1 out1] eqn:He.
    destruct (run env w1 es) as [w2 out2] eqn:Hes. simpl.
    intros [Hm|Hm]%elem_of_app Hp.
    + destruct (relay_origin w e m) as (sid & d & a & b & r & -> & ->);
        [by rewrite He|done|].
      eexists _, _, _, _, _. split; [apply list_elem_of_here|done].
    + destruct (IH w1 ltac:(by rewrite Hes) Hp) as (sid & d & a & b & r & Hin & ->).
      eexists _, _, _, _, _. split; [by apply list_elem_of_further|done].
Qed.

Lemma save_and_relay_origin sid d l s ok now w m :
  m ∈ (save_and_relay env sid d l s ok now w).2 →
  is_receive_chunk (payload m) = true →
  ok = true ∧ ∃ r, m = io_to_emit r (relay_of d).
Proof.
  unfold save_and_relay.
  destruct ok; simpl; [|by intros ->%list_elem_of_singleton].
  destruct (receiver s) as [r|]; simpl;
    [|by intros ->%list_elem_of_singleton].
  destruct (negb (r =? "")%string); simpl;
    [|by intros ->%list_elem_of_singleton].
  intros [->| ->%list_elem_of_singleton]%elem_of_cons; [|done].
  intros _. split; [done|]. by exists r.
Qed.

(** A receive-chunk event is emitted by the completion of a successful
    write only, and relays the chunk of that upload. *)
Lemma step_relay_origin st t m :
  m ∈ (step env st t).2 →
  is_receive_chunk (payload m) = true →
  ∃ d r, m = io_to_emit r (relay_of d) ∧
    ((∃ sid a b, t = handles (UploadChunk sid d true a b)) ∨
     (∃ k now p, t = write_settles k true now ∧ st.2 !! k = Some p ∧
                 pending_data p = d)).
Proof.
  destruct st as [w ps]. destruct t as [e|sid d now|k ok now]; simpl.
  - destruct (handle env w e) as [w' out] eqn:He. simpl. intros Hm Hp.
    destruct (relay_origin w e m) as (sid & d & a & b & r & -> & ->);
      [by rewrite He|done|].
    exists d, r. split; [done|]. left. by exists sid, a, b.
  - unfold upload_chunk_begin.
    destruct (get_session w (Upload.transferId d)) as [[l0 s0]|]; simpl;
      [|by intros ->%list_elem_of_singleton].
    case_bool_decide; simpl; [by intros ->%list_elem_of_singleton|].
    by intros ?%elem_of_nil.
  - destruct (ps !! k) as [p|] eqn:Hk; simpl; [|by intros ?%elem_of_nil].
    destruct (upload_chunk_resume env p ok now w) as [w' out] eqn:Hr. simpl.
    unfold upload_chunk_resume in Hr.
    destruct (heap w !! pending_session p) as [s0|];
      [|injection Hr as <- <-; by intros ?%elem_of_nil].
    intros Hm Hp.
    destruct (save_and_relay_origin (pending_socket p) (pending_data p)
                (pending_session p) s0 ok now w m) as (-> & r & ->);
      [by rewrite Hr|done|].
    exists (pending_data p), r. split; [done|]. right. by exists k, now, p.
Qed.

(** A handler suspended after a task was suspended before it, or is the
    one of the upload that has just arrived. *)
Lemma step_pending st t p :
  p ∈ (step env st t).1.2 →
  p ∈ st.2 ∨ ∃ sid now, t = upload_arrives sid (pending_data p) now.
Proof.
  destruct st as [w ps]. destruct t as [e|sid d now|k ok now]; simpl.
  - destruct (handle env w e). simpl. by left.
  - unfold upload_chunk_begin.
    destruct (get_session w (Upload.transferId d)) as [[l0 s0]|]; simpl;
      [|rewrite app_nil_r; by left].
    case_bool_decide; simpl; [rewrite app_nil_r; by left|].
    intros [Hp| ->%list_elem_of_singleton]%elem_of_app; [by left|].
    right. by exists sid, now.
  - destruct (ps !! k) as [p0|]; simpl; [|by left].
    destruct (upload_chunk_resume env p0 ok now w). simpl.
    intros Hp%list_elem_of_delete_inv. by left.
Qed.

Lemma steps_relay_origin ts st m :
  m ∈ (steps env st ts).2 →
  is_receive_chunk (payload m) = true →
  ∃ d r, m = io_to_emit r (relay_of d) ∧
    (d ∈ pending_data <$> st.2 ∨
     (∃ sid now, upload_arrives sid d now ∈ ts) ∨
     (∃ sid a b, handles (UploadChunk sid d true a b) ∈ ts)).
Proof.
  revert st. induction ts as [|t ts IH]; intros st; simpl.
  - by intros ?%elem_of_nil.
  - destruct (step env st t) as [st1 out1] eqn:Ht.
    destruct (steps env st1 ts) as [st2 out2] eqn:Hts. simpl.
    intros [Hm|Hm]%elem_of_app Hp.
    + destruct (step_relay_origin st t m) as (d & r & -> & Horigin);
        [by rewrite Ht|done|].
      exists d, r. split; [done|].
      destruct Horigin as [(sid & a & b & ->)|(k & now & p & -> & Hk & <-)].
      * right. right. exists sid, a, b. apply list_elem_of_here.
      * left. apply list_elem_of_fmap. exists p. split; [done|].
        by eapply list_elem_of_lookup_2.
    + destruct (IH st1 ltac:(by rewrite Hts) Hp)
        as (d & r & -> & [Hd|[(sid & now & Hin)|(sid & a & b & Hin)]]).
      * exists d, r. split; [done|].
        apply list_elem_of_fmap in Hd as (p & -> & Hin).
        pose proof (step_pending st t p) as Hpend. rewrite Ht in Hpend.
        destruct (Hpend Hin) as [Hold|(sid & now & ->)].
        -- left. apply list_elem_of_fmap. by exists p.
        -- right. left. exists sid, now. apply list_elem_of_here.
      * exists d, r. split; [done|]. right. left. exists sid, now.
        by apply list_elem_of_further.
      * exists d, r. split; [done|]. right. right. exists sid, a, b.
        by apply list_elem_of_further.
Qed.

(** An upload-chunk event handled by [handle] is the upload whose write
    settles before any other task is run. *)
Lemma upload_atomic w ps sid d write_ok now_info now_meta :
  steps env (w, ps)
    [upload_arrives sid d now_info;
     write_settles (length ps) write_ok now_meta] =
  (((handle env w (UploadChunk sid d write_ok now_info now_meta)).1, ps),
   (handle env w (UploadChunk sid d write_ok now_info now_meta)).2).
Proof.
  simpl. unfold upload_chunk_begin, on_upload_chunk.
  destruct (get_session w (Upload.transferId d)) as [[l s]|] eqn:Hg; simpl.
  - case_bool_decide; simpl.
    + rewrite app_nil_r, lookup_ge_None_2 by lia. done.
    + apply get_session_Some in Hg as [_ Hl].
      rewrite lookup_app_r, Nat.sub_diag by lia. simpl.
      unfold upload_chunk_resume. simpl.
      rewrite list_lookup_insert_eq by (by eapply lookup_lt_Some).
      unfold save_and_relay, store_session, set_files, set_heap.
      destruct write_ok; simpl;
        by rewrite list_insert_insert_eq, delete_middle, !app_nil_r.
  - rewrite app_nil_r, lookup_ge_None_2 by lia. done.
Qed.

(** C1, as the code has it.  An upload-chunk event from the sender of an
    existing session runs the handler to its await: the file info of chunk 0
    is stored, the handler is suspended on the write and nothing is emitted
    yet.  When the write has succeeded, whatever was handled in between, the
    handler goes on with the session as it is at that moment: if a receiver
    is bound then, the events emitted are exactly the receive-chunk event
    with the chunk and its five fields, addressed to that receiver,
    followed by the chunk-uploaded acknowledgment to the sender; if no
    receiver is bound then, the acknowledgment is the only event.  In both
    cases the chunk is stored under its key, its metadata is appended to the
    session and the handler is no longer suspended.  Every receive-chunk
    event emitted afterwards relays the chunk of another upload, still
    suspended then or arriving later. *)
Theorem upload_chunk_relay w ps sid d now_info l s :
  get_session w (Upload.transferId d) = Some (l, s) →
  sender s = sid →
  step env (w, ps) (upload_arrives sid d now_info) =
    ((store_session l (store_file_info d now_info s) w,
      ps ++ [mkPending sid d l]), []) ∧
  ∀ w2 ps2 k s2 now_meta,
    ps2 !! k = Some (mkPending sid d l) →
    heap w2 !! l = Some s2 →
    ∃ w' out,
      step env (w2, ps2) (write_settles k true now_meta) =
        ((w', delete k ps2), out) ∧
      (∀ r, receiver s2 = Some r → r ≠ "" →
         out = [io_to_emit r (relay_of d);
                socket_emit sid (chunk_uploaded (Upload.chunkIndex d))]) ∧
      (truthy (receiver s2) = false →
         out = [socket_emit sid (chunk_uploaded (Upload.chunkIndex d))]) ∧
      files w' !! chunkPath env (Upload.transferId d) (Upload.chunkIndex d) =
        Some (Upload.chunk d) ∧
      (∃ s', heap w' !! l = Some s' ∧
         chunks s' = chunks s2 ++ [chunk_meta env d now_meta]) ∧
      (∀ ts m,
         m ∈ (steps env (w', delete k ps2) ts).2 →
         is_receive_chunk (payload m) = true →
         ∃ d' r, m = io_to_emit r (relay_of d') ∧
           (d' ∈ pending_data <$> delete k ps2 ∨
            (∃ sid' now', upload_arrives sid' d' now' ∈ ts) ∨
            (∃ sid' a b, handles (UploadChunk sid' d' true a b) ∈ ts))).
Proof.
  intros Hg Hs. split.
  - simpl. unfold upload_chunk_begin. rewrite Hg.
    by rewrite bool_decide_false by (by intros ?).
  - intros w2 ps2 k s2 now_meta Hk Hl2. simpl. rewrite Hk.
    unfold upload_chunk_resume. simpl. rewrite Hl2.
    unfold save_and_relay. simpl.
    eexists _, _. split; [reflexivity|]. split_and!.
    + intros r -> Hne. simpl. by apply String.eqb_neq in Hne as ->.
    + intros Ht. destruct (receiver s2) as [r|]; [|done]. by rewrite Ht.
    + simpl. apply lookup_insert_eq.
    + eexists. split.
      * simpl. apply list_lookup_insert_eq. by eapply lookup_lt_Some.
      * done.
    + intros ts m. apply steps_relay_origin.
Qed.

(** C2, as the code has it.  When the bound sender uploads a chunk to an
    existing session and the write fails, the only event emitted is a
    CHUNK_SAVE_ERROR error to the sender, no chunk metadata is recorded, no
    file is stored and the registry, the sender and the receiver are
    unchanged.  For a chunk index other than 0 the whole server state is
    unchanged.  For chunk index 0 the file info and the status were assigned
    before the write was attempted and stay assigned: the file info is the
    one of the event and the status is uploading. *)
Theorem upload_chunk_save_error w sid d now_info now_meta l s :
  get_session w (Upload.transferId d) = Some (l, s) →
  sender s = sid →
  ∃ w' s',
    handle env w (UploadChunk sid d false now_info now_meta) =
    (w', [socket_emit sid
            (error CHUNK_SAVE_ERROR (Some (Upload.chunkIndex d)))]) ∧
    heap w' !! l = Some s' ∧
    chunks s' = chunks s ∧ sender s' = sender s ∧ receiver s' = receiver s ∧
    files w' = files w ∧ transferSessions w' = transferSessions w ∧
    (Upload.chunkIndex d ≠ 0%N → w' = w) ∧
    (Upload.chunkIndex d = 0%N →
       fileInfo s' = Some (info_of d now_info) ∧ status s' = uploading).
Proof.
  intros Hg Hs. simpl. unfold on_upload_chunk. rewrite Hg.
  rewrite bool_decide_false by (by intros ?).
  apply get_session_Some in Hg as [_ Hl].
  unfold save_and_relay.
  eexists _, _. split; [reflexivity|].
  split; [apply list_lookup_insert_eq; by eapply lookup_lt_Some|].
  unfold store_file_info.
  destruct (Upload.chunkIndex d =? 0)%N eqn:Hi; simpl.
  - apply N.eqb_eq in Hi. by repeat split.
  - apply N.eqb_neq in Hi. repeat split; try done.
    intros _. unfold store_session. rewrite list_insert_id by done.
    by destruct w.
Qed.

(** C3, as the code has it.  The status of a session object never moves
    backward along waiting, connected, uploading, completed over a sequence
    of events, provided that no join is accepted once the session is
    uploading or completed and no chunk with index 0 is accepted once it is
    completed; each of these two events does move the status backward, to
    connected and to uploading. *)
Theorem status_forward l w s :
  heap w !! l = Some s →
  (∀ es, avoids env (regresses l) w es = true →
     ∃ s', heap (run env w es).1 !! l = Some s' ∧
           rank (status s) ≤ rank (status s')) ∧
  (∀ e, regresses l w e = true →
     ∃ s', heap (handle env w e).1 !! l = Some s' ∧
           rank (status s') < rank (status s)).
Proof.
  intros Hl. split.
  - intros es. revert es w s Hl.
    apply (run_session_rel env (regresses l)
             (λ a b, rank (status a) ≤ rank (status b))).
    + done.
    + intros a b c ??. lia.
    + intros w0 e s0 s1 Hl Hbad Hst.
      destruct Hst as [e|sid tid Ht Hr|sid d a b Ht Hs|sid d a b Ht Hs
                      |sid tid now Ht]; simpl.
      * done.
      * simpl in Hbad.
        rewrite (proj2 (get_session_Some w0 tid l s0) (conj Ht Hl)) in Hbad.
        rewrite bool_decide_true, Hr in Hbad by done. simpl in Hbad.
        destruct (status s0); simpl in *; lia || done.
      * simpl in Hbad.
        rewrite (proj2 (get_session_Some w0 _ l s0) (conj Ht Hl)) in Hbad.
        rewrite !bool_decide_true in Hbad by done. simpl in Hbad.
        unfold store_file_info.
        destruct (Upload.chunkIndex d =? 0)%N; simpl in *; [|done].
        destruct (status s0); simpl in *; lia || done.
      * simpl in Hbad.
        rewrite (proj2 (get_session_Some w0 _ l s0) (conj Ht Hl)) in Hbad.
        rewrite !bool_decide_true in Hbad by done. simpl in Hbad.
        unfold store_file_info.
        destruct (Upload.chunkIndex d =? 0)%N; simpl in *; [|done].
        destruct (status s0); simpl in *; lia || done.
      * destruct (status s0); simpl; lia.
  - assert (Hlen : l < length (heap w)) by (by eapply lookup_lt_Some).
    intros [sid now|sid tid now|sid tid|sid d ok n1 n2|sid tid now|sid tid
           |sid|tid fails] Hreg; simpl in Hreg; try done.
    + destruct (get_session w tid) as [[l0 s0]|] eqn:Hg; [|done].
      apply andb_true_iff in Hreg as [Hreg Hrank].
      apply andb_true_iff in Hreg as [Hl0 Hr].
      apply bool_decide_eq_true in Hl0 as ->. apply negb_true_iff in Hr.
      simpl. unfold on_join_transfer.
      rewrite Hg, Hr. apply get_session_Some in Hg as [_ Hl0].
      rewrite Hl in Hl0. injection Hl0 as <-.
      exists (set_receiver_status (Some sid) connected s). split.
      * destruct (activeConnections _ !! sid); simpl;
          by apply list_lookup_insert_eq.
      * destruct (status s); simpl in *; lia || done.
    + destruct (get_session w (Upload.transferId d)) as [[l0 s0]|] eqn:Hg;
        [|done].
      apply andb_true_iff in Hreg as [Hreg Hrank].
      apply andb_true_iff in Hreg as [Hreg Hi].
      apply andb_true_iff in Hreg as [Hl0 Hs].
      apply bool_decide_eq_true in Hl0 as ->. apply bool_decide_eq_true in Hs.
      simpl. unfold on_upload_chunk.
      rewrite Hg. rewrite bool_decide_false by (by intros ?).
      apply get_session_Some in Hg as [_ Hl0].
      rewrite Hl in Hl0. injection Hl0 as <-.
      unfold save_and_relay, store_file_info. rewrite Hi.
      destruct ok; simpl; eexists;
        (split; [by apply list_lookup_insert_eq|];
         destruct (status s); simpl in *; lia || done).
Qed.

(** C4, as the code has it.  The file info of a session object is changed
    by no event other than an upload-chunk event with chunk index 0 that
    passes the checks of the handler; such an event, the first one or a
    later one such as a retry, replaces the file info by the fields of the
    event and the clock reading, whether or not the write succeeds. *)
Theorem file_info_changes_only_on_first_chunk l w s :
  heap w !! l = Some s →
  (∀ es, avoids env (accepts_first_chunk l) w es = true →
     ∃ s', heap (run env w es).1 !! l = Some s' ∧ fileInfo s' = fileInfo s) ∧
  (∀ sid d write_ok now_info now_meta,
     accepts_first_chunk l w (UploadChunk sid d write_ok now_info now_meta)
       = true →
     ∃ s',
       heap (handle env w (UploadChunk sid d write_ok now_info now_meta)).1
         !! l = Some s' ∧
       fileInfo s' = Some (info_of d now_info)).
Proof.
  intros Hl. split.
  - intros es.
    apply (run_session_rel env (accepts_first_chunk l)
             (λ a b, fileInfo b = fileInfo a)); [done|congruence| |done].
    intros w0 e s0 s1 Hl0 Hbad Hst.
    destruct Hst as [e|sid tid Ht Hr|sid d a b Ht Hs|sid d a b Ht Hs
                    |sid tid now Ht]; simpl; try done.
    all: simpl in Hbad;
      rewrite (proj2 (get_session_Some w0 _ l s0) (conj Ht Hl0)) in Hbad;
      rewrite !bool_decide_true in Hbad by done; simpl in Hbad;
      unfold store_file_info; by rewrite Hbad.
  - intros sid d ok a b Hacc. simpl in Hacc. simpl.
    unfold on_upload_chunk.
    destruct (get_session w (Upload.transferId d)) as [[l0 s0]|] eqn:Hg;
      [|done].
    apply andb_true_iff in Hacc as [Hacc Hi].
    apply andb_true_iff in Hacc as [Hl0 Hs].
    apply bool_decide_eq_true in Hl0 as ->.
    apply bool_decide_eq_true in Hs.
    rewrite bool_decide_false by (by intros ?).
    apply get_session_Some in Hg as [_ Hl0].
    unfold save_and_relay, store_file_info. rewrite Hi. simpl.
    destruct ok; simpl; eexists;
      (split; [apply list_lookup_insert_eq; by eapply lookup_lt_Some|done]).
Qed.


(** C6, as the code has it.  When the transferIds contain no path
    separator and the texts that the template literal prints for the chunk
    indexes contain neither a path separator nor an underscore, two pairs
    that differ in the transferId or in the printed index have different
    storage keys.  In particular, for transferIds without path separator
    and chunk indexes that are non-negative integers below 10^21, which are
    printed in plain decimal, distinct pairs of a transferId and a chunk
    index have distinct storage keys. *)
Theorem chunk_path_injective :
  (∀ tid1 text1 tid2 text2,
     Str.contains path.sep tid1 = false →
     Str.contains path.sep tid2 = false →
     Str.contains path.sep text1 = false →
     Str.contains path.sep text2 = false →
     Str.contains "_" text1 = false →
     Str.contains "_" text2 = false →
     (tid1, text1) ≠ (tid2, text2) →
     chunkKey env tid1 text1 ≠ chunkKey env tid2 text2) ∧
  (∀ tid1 i1 tid2 i2,
     Str.contains path.sep tid1 = false →
     Str.contains path.sep tid2 = false →
     (i1 < 10 ^ 21)%N →
     (i2 < 10 ^ 21)%N →
     (tid1, i1) ≠ (tid2, i2) →
     chunkPath env tid1 i1 ≠ chunkPath env tid2 i2).
Proof.
  destruct (path_join_segment (config.TEMP_DIR env) (TEMP_DIR_nonempty env))
    as (pre & Hpre).
  assert (Hseg : ∀ t x,
    Str.contains path.sep t = false → Str.contains path.sep x = false →
    chunkKey env t x = pre +:+ t +:+ "_chunk_" +:+ x).
  { intros t x Ht Hx. unfold chunkKey.
    assert (Hu : Str.contains "_" (t +:+ "_chunk_" +:+ x) = true).
    { rewrite !contains_app. simpl. apply orb_true_r. }
    apply Hpre.
    - rewrite !contains_app, Ht. simpl. exact Hx.
    - intros Heq. by rewrite Heq in Hu.
    - intros Heq. by rewrite Heq in Hu.
    - intros Heq. by rewrite Heq in Hu. }
  assert (Htext : ∀ tid1 text1 tid2 text2,
     Str.contains path.sep tid1 = false →
     Str.contains path.sep tid2 = false →
     Str.contains path.sep text1 = false →
     Str.contains path.sep text2 = false →
     Str.contains "_" text1 = false →
     Str.contains "_" text2 = false →
     (tid1, text1) ≠ (tid2, text2) →
     chunkKey env tid1 text1 ≠ chunkKey env tid2 text2).
  { intros tid1 x1 tid2 x2 Ht1 Ht2 Hs1 Hs2 Hu1 Hu2 Hne.
    rewrite !Hseg by done. intros Heq%(inj (String.app pre)).
    apply Hne. by apply template_text_inj in Heq as [-> ->]. }
  split; [exact Htext|].
  intros tid1 i1 tid2 i2 Ht1 Ht2 _ _ Hne.
  change (chunkKey env tid1 (Str.of_N i1) ≠ chunkKey env tid2 (Str.of_N i2)).
  apply Htext; try done; try apply of_N_no_sep; try apply of_N_digits.
  intros [= -> Hi%of_N_inj]. by subst.
Qed.

Lemma unlink_chunks_None fails i cs (fs : gmap string (list Byte.byte)) p :
  fs !! p = None → unlink_chunks fails i cs fs !! p = None.
Proof.
  revert i fs. induction cs as [|c cs IH]; intros i fs Hp; simpl; [done|].
  apply IH. destruct (fails i); [done|].
  destruct (decide (Chunk.path c = p)) as [->|Hne].
  - apply lookup_delete_eq.
  - by rewrite lookup_delete_ne.
Qed.

Lemma unlink_chunks_deleted fails i cs (fs : gmap string (list Byte.byte)) j c :
  cs !! j = Some c → fails (i + j) = false →
  unlink_chunks fails i cs fs !! Chunk.path c = None.
Proof.
  revert i j fs. induction cs as [|c0 cs IH]; intros i j fs Hj Hf; [done|].
  destruct j as [|j]; simpl in *.
  - injection Hj as ->. rewrite Nat.add_0_r in Hf. rewrite Hf.
    apply unlink_chunks_None, lookup_delete_eq.
  - apply (IH (S i) j); [done|]. by replace (S i + j) with (i + S j) by lia.
Qed.

Lemma unlink_chunks_other fails i cs (fs : gmap string (list Byte.byte)) p :
  p ∉ (Chunk.path <$> cs) → unlink_chunks fails i cs fs !! p = fs !! p.
Proof.
  revert i fs. induction cs as [|c cs IH]; intros i fs Hp; simpl; [done|].
  rewrite fmap_cons, not_elem_of_cons in Hp. destruct Hp as [Hne Hp].
  rewrite IH by done. destruct (fails i); [done|].
  by rewrite lookup_delete_ne.
Qed.

Lemma unlink_chunks_sub fails i cs (fs : gmap string (list Byte.byte)) p :
  unlink_chunks fails i cs fs !! p = None ∨
  unlink_chunks fails i cs fs !! p = fs !! p.
Proof.
  revert i fs. induction cs as [|c cs IH]; intros i fs; simpl; [by right|].
  destruct (fails i); [apply IH|].
  destruct (decide (Chunk.path c = p)) as [->|Hne].
  - left. apply unlink_chunks_None, lookup_delete_eq.
  - destruct (IH (S i) (delete (Chunk.path c) fs)) as [H|H]; [by left|right].
    by rewrite H, lookup_delete_ne.
Qed.

(** C9.  For a registered transferId, [cleanupTransfer] removes the file
    of every entry of the session's chunk list whose unlink does not fail,
    whatever happens to the unlinks of the other entries, touches no other
    file and writes none, and removes the transferId, and only it, from the
    registry; after it, and on any transferId that is not registered,
    [cleanupTransfer] changes nothing. *)
Theorem cleanup_transfer w tid unlink_fails :
  (transferSessions w !! tid = None → cleanupTransfer tid unlink_fails w = w) ∧
  (∀ l s, get_session w tid = Some (l, s) →
     let w' := cleanupTransfer tid unlink_fails w in
     transferSessions w' !! tid = None ∧
     (∀ i c, chunks s !! i = Some c → unlink_fails i = false →
        files w' !! Chunk.path c = None) ∧
     (∀ p, p ∉ (Chunk.path <$> chunks s) → files w' !! p = files w !! p) ∧
     (∀ p, files w' !! p = None ∨ files w' !! p = files w !! p) ∧
     (∀ tid', tid' ≠ tid →
        transferSessions w' !! tid' = transferSessions w !! tid') ∧
     heap w' = heap w ∧ activeConnections w' = activeConnections w ∧
     (∀ unlink_fails', cleanupTransfer tid unlink_fails' w' = w')).
Proof.
  split.
  - intros Ht. unfold cleanupTransfer, get_session. by rewrite Ht.
  - intros l s Hg w'. subst w'. unfold cleanupTransfer. rewrite Hg. simpl.
    split; [apply lookup_delete_eq|].
    split; [intros i c Hi Hf; by apply (unlink_chunks_deleted _ 0 _ _ i)|].
    split; [intros p Hp; by apply unlink_chunks_other|].
    split; [intros p; apply unlink_chunks_sub|].
    split; [intros tid' Hne; by rewrite lookup_delete_ne|].
    split; [done|]. split; [done|].
    intros fails'. unfold get_session. simpl. by rewrite lookup_delete_eq.
Qed.

End Protocol.

(** ** More properties of the handlers *)

Section Handlers_facts.

Variable env : option string.

Lemma store_file_info_fields d now s :
  transferId (store_file_info d now s) = transferId s ∧
  sender (store_file_info d now s) = sender s ∧
  receiver (store_file_info d now s) = receiver s ∧
  chunks (store_file_info d now s) = chunks s ∧
  startTime (store_file_info d now s) = startTime s ∧
  completedAt (store_file_info d now s) = completedAt s.
Proof. unfold store_file_info. by destruct (_ =? _)%N. Qed.

(** The heap grows by the one object that a create-transfer event
    allocates. *)
Lemma heap_length w e :
  length (heap (handle env w e).1) =
  length (heap w) +
  match e with CreateTransfer _ _ _ => 1 | _ => 0 end.
Proof.
  destruct e as [sid now|sid tid now|sid tid|sid d ok n1 n2|sid tid now|sid tid
                |sid|tid fails]; simpl.
  - lia.
  - unfold on_create_transfer. simpl.
    destruct (activeConnections w !! sid); simpl; rewrite length_app; simpl; lia.
  - unfold on_join_transfer.
    destruct (get_session w tid) as [[l0 s0]|]; simpl; [|lia].
    destruct (truthy (receiver s0)); simpl; [lia|].
    destruct (activeConnections w !! sid); simpl; rewrite length_insert; lia.
  - unfold on_upload_chunk.
    destruct (get_session w (Upload.transferId d)) as [[l0 s0]|]; simpl; [|lia].
    case_bool_decide; simpl; [lia|]. unfold save_and_relay.
    destruct ok; simpl; rewrite length_insert; lia.
  - unfold on_upload_complete.
    destruct (get_session w tid) as [[l0 s0]|]; simpl; [|lia].
    rewrite length_insert. lia.
  - unfold on_get_status. destruct (get_session w tid) as [[??]|]; simpl; lia.
  - unfold on_disconnect.
    destruct (activeConnections w !! sid) as [c|]; simpl; [|lia].
    destruct (Connection.transferId c) as [tid|]; simpl; [|lia].
    destruct (negb (tid =? "")%string); simpl; [|lia].
    destruct (get_session w tid) as [[??]|]; simpl; lia.
  - unfold cleanupTransfer. destruct (get_session w tid) as [[??]|]; simpl; lia.
Qed.

Lemma create_new_object w sid tid now :
  heap (handle env w (CreateTransfer sid tid now)).1 !! length (heap w) =
  Some (mkSession tid sid None [] None now waiting None).
Proof.
  simpl. unfold on_create_transfer. simpl.
  destruct (activeConnections w !! sid); simpl;
    rewrite lookup_app_r by lia; by rewrite Nat.sub_diag.
Qed.

(** A session object found after an event was there before, and changed as
    [session_step] says, or is the one the event has just created. *)
Lemma heap_new w e l s' :
  heap (handle env w e).1 !! l = Some s' →
  (∃ s, heap w !! l = Some s ∧ session_step env w l s e s') ∨
  (l = length (heap w) ∧ ∃ sid tid now,
     e = CreateTransfer sid tid now ∧
     s' = mkSession tid sid None [] None now waiting None).
Proof.
  intros Hl'. destruct (heap w !! l) as [s|] eqn:Hl.
  - left. exists s. split; [done|].
    destruct (heap_step env w e l s Hl) as (s'' & Hl'' & Hst). congruence.
  - right. apply lookup_ge_None in Hl.
    pose proof (lookup_lt_Some _ _ _ Hl') as Hlt.
    rewrite heap_length in Hlt.
    destruct e as [sid now|sid tid now|sid tid|sid d ok n1 n2|sid tid now
                  |sid tid|sid|tid fails]; try lia.
    assert (l = length (heap w)) as -> by lia.
    split; [done|]. exists sid, tid, now. split; [done|].
    rewrite create_new_object in Hl'. congruence.
Qed.

(** X1.  An unregistered transferId: join, upload-chunk and upload-complete
    answer the caller with SESSION_NOT_FOUND, get-status answers found=false,
    and none of them, nor a cleanup, changes the state. *)
Theorem session_not_found w tid :
  transferSessions w !! tid = None →
  (∀ sid,
     handle env w (JoinTransfer sid tid) =
     (w, [socket_emit sid (error SESSION_NOT_FOUND None)])) ∧
  (∀ sid d write_ok now_info now_meta,
     Upload.transferId d = tid →
     handle env w (UploadChunk sid d write_ok now_info now_meta) =
     (w, [socket_emit sid (error SESSION_NOT_FOUND None)])) ∧
  (∀ sid now,
     handle env w (UploadComplete sid tid now) =
     (w, [socket_emit sid (error SESSION_NOT_FOUND None)])) ∧
  (∀ sid,
     handle env w (GetStatus sid tid) =
     (w, [socket_emit sid status_response_not_found])) ∧
  (∀ unlink_fails, handle env w (Cleanup tid unlink_fails) = (w, [])).
Proof.
  intros Ht.
  assert (Hg : get_session w tid = None) by (unfold get_session; by rewrite Ht).
  split_and!.
  - intros sid. simpl. unfold on_join_transfer. by rewrite Hg.
  - intros sid d ok a b <-. simpl. unfold on_upload_chunk. by rewrite Hg.
  - intros sid now. simpl. unfold on_upload_complete. by rewrite Hg.
  - intros sid. simpl. unfold on_get_status. by rewrite Hg.
  - intros fails. simpl. unfold cleanupTransfer. by rewrite Hg.
Qed.

(** X2.  A join by a connected socket on a session without receiver binds
    the caller as receiver and sets the status to connected, leaving the
    other fields of the session; it emits receiver-connected to the sender
    and then joined-transfer to the caller, records role and transferId in
    the caller's connection record and logs JOIN.  Nothing is replayed: no
    chunk stored earlier is emitted. *)
Theorem join_binds_receiver w sid tid l s c :
  get_session w tid = Some (l, s) →
  truthy (receiver s) = false →
  activeConnections w !! sid = Some c →
  ∃ w' s',
    handle env w (JoinTransfer sid tid) =
    (w', [io_to_emit (sender s) (receiver_connected tid sid);
          socket_emit sid (joined_transfer tid)]) ∧
    heap w' !! l = Some s' ∧
    receiver s' = Some sid ∧ status s' = connected ∧
    transferId s' = transferId s ∧ sender s' = sender s ∧
    chunks s' = chunks s ∧ fileInfo s' = fileInfo s ∧
    startTime s' = startTime s ∧ completedAt s' = completedAt s ∧
    activeConnections w' !! sid =
      Some (Connection.mk (Connection.connectedAt c) (Some role_receiver)
              (Some tid)) ∧
    activity w' = activity w ++ [mkLogEntry JOIN tid sid] ∧
    transferSessions w' = transferSessions w ∧ files w' = files w ∧
    timers w' = timers w.
Proof.
  intros Hg Hr Hc. simpl. unfold on_join_transfer. rewrite Hg, Hr. simpl.
  rewrite Hc. apply get_session_Some in Hg as [_ Hl].
  eexists _, _. split; [reflexivity|]. simpl.
  split; [apply list_lookup_insert_eq; by eapply lookup_lt_Some|].
  split_and!; try done. apply lookup_insert_eq.
Qed.

(** X3.  A create-transfer by a connected socket allocates a new session
    object, with the caller as sender, status waiting and nothing else set,
    and registers it under the transferId, whether or not the transferId was
    registered before; it emits transfer-created to the caller and logs
    CREATE.  Every session object that existed, among them the one that the
    transferId named before, is left as it was, as are the registrations of
    the other transferIds and all stored files. *)
Theorem create_transfer_registers w sid tid now c :
  activeConnections w !! sid = Some c →
  ∃ w',
    handle env w (CreateTransfer sid tid now) =
    (w', [socket_emit sid (transfer_created tid)]) ∧
    get_session w' tid =
      Some (length (heap w), mkSession tid sid None [] None now waiting None) ∧
    (∀ l s, heap w !! l = Some s → heap w' !! l = Some s) ∧
    (∀ tid', tid' ≠ tid →
       transferSessions w' !! tid' = transferSessions w !! tid') ∧
    activeConnections w' !! sid =
      Some (Connection.mk (Connection.connectedAt c) (Some role_sender)
              (Some tid)) ∧
    activity w' = activity w ++ [mkLogEntry CREATE tid sid] ∧
    files w' = files w ∧ timers w' = timers w.
Proof.
  intros Hc. simpl. unfold on_create_transfer. simpl. rewrite Hc.
  eexists. split; [reflexivity|]. split_and!; try done.
  - apply get_session_Some. simpl. split; [apply lookup_insert_eq|].
    rewrite lookup_app_r by lia. by rewrite Nat.sub_diag.
  - intros l s Hl. simpl. rewrite lookup_app_l; [done|].
    by eapply lookup_lt_Some.
  - intros tid' Hne. simpl. by rewrite lookup_insert_ne.
  - simpl. apply lookup_insert_eq.
Qed.

(** X4.  The chunk list of a session object is append-only: after any
    sequence of events it is the list it was, followed by the entries added
    since, so that the chunksReceived count never decreases. *)
Theorem chunks_append_only l w s es :
  heap w !! l = Some s →
  ∃ s', heap (run env w es).1 !! l = Some s' ∧
        chunks s `prefix_of` chunks s' ∧
        length (chunks s) ≤ length (chunks s').
Proof.
  intros Hl.
  destruct (run_session_rel env (λ _ _, false)
    (λ a b, chunks a `prefix_of` chunks b) l)
    with (es := es) (w := w) (s := s) as (s' & Hl' & HR); eauto.
  - intros a b c0 ??. by etrans.
  - intros w0 e s0 s1 _ _ Hst.
    destruct Hst as [e|sid tid Ht Hr|sid d a b Ht Hs|sid d a b Ht Hs
                    |sid tid now Ht]; simpl; try done.
    + rewrite (proj1 (proj2 (proj2 (proj2 (store_file_info_fields d a s0))))).
      by apply prefix_app_r.
    + by rewrite (proj1 (proj2 (proj2 (proj2 (store_file_info_fields d a s0))))).
  - apply avoids_nothing.
  - exists s'. split; [done|]. split; [done|]. by apply prefix_length.
Qed.

(** X5.  The transferId, the sender and the start time of a session object
    never change, whatever events follow its creation. *)
Theorem session_identity_immutable l w s es :
  heap w !! l = Some s →
  ∃ s', heap (run env w es).1 !! l = Some s' ∧
        transferId s' = transferId s ∧ sender s' = sender s ∧
        startTime s' = startTime s.
Proof.
  intros Hl.
  destruct (run_session_rel env (λ _ _, false)
    (λ a b, transferId b = transferId a ∧ sender b = sender a ∧
            startTime b = startTime a) l)
    with (es := es) (w := w) (s := s) as (s' & Hl' & HR); eauto.
  - intros a b c0 (?&?&?) (?&?&?). split_and!; congruence.
  - intros w0 e s0 s1 _ _ Hst.
    destruct Hst as [e|sid tid Ht Hr|sid d a b Ht Hs|sid d a b Ht Hs
                    |sid tid now Ht]; simpl; try done.
    all: by destruct (store_file_info_fields d a s0) as (?&?&?&?&?&?).
  - apply avoids_nothing.
Qed.

(** X6.  Only the sender adds chunks: if an event changes the chunk list of
    a session object, the event is an upload-chunk from the sender of the
    session, addressed to a transferId registered for that object, whose
    write succeeded, and the change is the one entry of that chunk at the
    end of the list. *)
Theorem only_sender_adds_chunks w e l s s' :
  heap w !! l = Some s →
  heap (handle env w e).1 !! l = Some s' →
  chunks s' ≠ chunks s →
  ∃ d now_info now_meta,
    e = UploadChunk (sender s) d true now_info now_meta ∧
    transferSessions w !! Upload.transferId d = Some l ∧
    chunks s' = chunks s ++ [chunk_meta env d now_meta].
Proof.
  intros Hl Hl' Hne.
  destruct (heap_step env w e l s Hl) as (s'' & Hl'' & Hst).
  rewrite Hl' in Hl''. injection Hl'' as <-.
  destruct Hst as [e|sid tid Ht Hr|sid d a b Ht Hs|sid d a b Ht Hs
                  |sid tid now Ht]; simpl in Hne; try done.
  - subst sid. exists d, a, b. split; [done|]. split; [done|]. simpl.
    by destruct (store_file_info_fields d a s) as (?&?&?&->&?&?).
  - by destruct (store_file_info_fields d a s) as (?&?&?&Hc&?&?).
Qed.

(** What one event does to the stored files: a file found afterwards was
    there before, or is the chunk of the event under its key. *)
Lemma files_step w e p b :
  files (handle env w e).1 !! p = Some b →
  files w !! p = Some b ∨
  ∃ sid d now_info now_meta,
    e = UploadChunk sid d true now_info now_meta ∧
    p = chunkPath env (Upload.transferId d) (Upload.chunkIndex d) ∧
    b = Upload.chunk d.
Proof.
  destruct e as [sid now|sid tid now|sid tid|sid d ok n1 n2|sid tid now|sid tid
                |sid|tid fails]; simpl.
  - by left.
  - unfold on_create_transfer. simpl.
    destruct (activeConnections w !! sid); by left.
  - unfold on_join_transfer.
    destruct (get_session w tid) as [[l0 s0]|]; [|by left].
    destruct (truthy (receiver s0)); [by left|]. simpl.
    destruct (activeConnections w !! sid); by left.
  - unfold on_upload_chunk.
    destruct (get_session w (Upload.transferId d)) as [[l0 s0]|]; [|by left].
    case_bool_decide; [by left|]. unfold save_and_relay.
    destruct ok; simpl; [|by left].
    destruct (decide
      (chunkPath env (Upload.transferId d) (Upload.chunkIndex d) = p))
      as [<-|Hne].
    + rewrite lookup_insert_eq. intros [= <-]. right.
      by exists sid, d, n1, n2.
    + rewrite lookup_insert_ne by done. by left.
  - unfold on_upload_complete.
    destruct (get_session w tid) as [[l0 s0]|]; by left.
  - unfold on_get_status. destruct (get_session w tid) as [[??]|]; by left.
  - unfold on_disconnect.
    destruct (activeConnections w !! sid) as [c|]; [|by left].
    destruct (Connection.transferId c) as [tid|]; [|by left].
    destruct (truthy (Some tid)); [|by left].
    destruct (get_session w tid) as [[??]|]; by left.
  - unfold cleanupTransfer.
    destruct (get_session w tid) as [[l0 s0]|]; [|by left]. simpl.
    destruct (unlink_chunks_sub fails 0 (chunks s0) (files w) p) as [H|H];
      rewrite H; [done|by left].
Qed.

(** X7.  The temporary store holds nothing but uploaded chunks: a file
    found after a sequence of events was there before it, or holds the
    bytes of an upload-chunk event of the sequence whose write succeeded,
    under the storage key of that chunk. *)
Theorem files_only_uploaded_chunks es w p b :
  files (run env w es).1 !! p = Some b →
  files w !! p = Some b ∨
  ∃ sid d now_info now_meta,
    UploadChunk sid d true now_info now_meta ∈ es ∧
    p = chunkPath env (Upload.transferId d) (Upload.chunkIndex d) ∧
    b = Upload.chunk d.
Proof.
  revert w. induction es as [|e es IH]; intros w; simpl; [by left|].
  destruct (handle env w e) as [w1 out1] eqn:He.
  destruct (run env w1 es) as [w2 out2] eqn:Hes. simpl.
  intros Hp. specialize (IH w1). rewrite Hes in IH.
  destruct (IH Hp) as [Hw1|(sid & d & a & c & Hin & -> & ->)].
  - pose proof (files_step w e p b) as Hstep. rewrite He in Hstep.
    destruct (Hstep Hw1) as [?|(sid & d & a & c & -> & -> & ->)]; [by left|].
    right. exists sid, d, a, c. split; [apply list_elem_of_here|done].
  - right. exists sid, d, a, c. split; [by apply list_elem_of_further|done].
Qed.

Lemma connection_step sid w e :
  is_Some (activeConnections w !! sid) →
  is_disconnect_of sid e = false →
  is_Some (activeConnections (handle env w e).1 !! sid).
Proof.
  intros Hc He.
  assert (Hins : ∀ sid' c' (m : gmap string Connection.t),
    is_Some (m !! sid) → is_Some (<[sid':=c']> m !! sid)).
  { intros sid' c' m Hm. destruct (decide (sid' = sid)) as [->|Hne].
    - by rewrite lookup_insert_eq.
    - by rewrite lookup_insert_ne. }
  destruct e as [sid0 now|sid0 tid now|sid0 tid|sid0 d ok n1 n2|sid0 tid now
                |sid0 tid|sid0|tid fails]; simpl.
  - by apply Hins.
  - unfold on_create_transfer. simpl.
    destruct (activeConnections w !! sid0); simpl; [by apply Hins|done].
  - unfold on_join_transfer.
    destruct (get_session w tid) as [[l0 s0]|]; [|done].
    destruct (truthy (receiver s0)); [done|]. simpl.
    destruct (activeConnections w !! sid0); simpl; [by apply Hins|done].
  - unfold on_upload_chunk.
    destruct (get_session w (Upload.transferId d)) as [[l0 s0]|]; [|done].
    case_bool_decide; [done|]. unfold save_and_relay. by destruct ok.
  - unfold on_upload_complete.
    by destruct (get_session w tid) as [[l0 s0]|].
  - unfold on_get_status. by destruct (get_session w tid) as [[??]|].
  - simpl in He. apply String.eqb_neq in He.
    assert (Hdel : is_Some (delete sid0 (activeConnections w) !! sid))
      by (by rewrite lookup_delete_ne).
    unfold on_disconnect.
    destruct (activeConnections w !! sid0) as [c|]; [|done].
    destruct (Connection.transferId c) as [tid|]; [|done].
    destruct (truthy (Some tid)); [|done].
    by destruct (get_session w tid) as [[??]|].
  - unfold cleanupTransfer. by destruct (get_session w tid) as [[??]|].
Qed.

(** X8.  The connection record of a socket stays in [activeConnections]
    from its connection on, through every event of any socket, as long as
    the socket itself does not disconnect; its disconnect removes it. *)
Theorem connection_record_persists sid w :
  is_Some (activeConnections w !! sid) →
  (∀ es, avoids env (λ _ e, is_disconnect_of sid e) w es = true →
     is_Some (activeConnections (run env w es).1 !! sid)) ∧
  activeConnections (handle env w (Disconnect sid)).1 !! sid = None.
Proof.
  intros Hc. split.
  - intros es. revert w Hc. induction es as [|e es IH]; intros w Hc; simpl;
      [done|].
    intros [He%negb_true_iff Hav]%andb_true_iff.
    pose proof (connection_step sid w e Hc He) as Hc1.
    destruct (handle env w e) as [w1 out1]; simpl in *.
    specialize (IH w1 Hc1 Hav). by destruct (run env w1 es).
  - simpl. unfold on_disconnect.
    destruct (activeConnections w !! sid) as [c|]; [|by destruct Hc].
    destruct (Connection.transferId c) as [tid|]; simpl;
      [|apply lookup_delete_eq].
    destruct (negb (tid =? "")%string); simpl; [|apply lookup_delete_eq].
    destruct (get_session w tid) as [[??]|]; simpl; apply lookup_delete_eq.
Qed.

Lemma activity_step w e :
  ∃ new, activity (handle env w e).1 = activity w ++ new ∧
         ∀ x, x ∈ new → logged_by x e = true.
Proof.
  assert (Hnil : ∀ w', activity w' = activity w →
    ∃ new, activity w' = activity w ++ new ∧
           ∀ x, x ∈ new → logged_by x e = true).
  { intros w' Hw'. exists []. rewrite app_nil_r. split; [done|].
    by intros x ?%elem_of_nil. }
  destruct e as [sid now|sid tid now|sid tid|sid d ok n1 n2|sid tid now|sid tid
                |sid|tid fails]; simpl.
  - by apply Hnil.
  - unfold on_create_transfer. simpl.
    destruct (activeConnections w !! sid); simpl; [|by apply Hnil].
    eexists. split; [reflexivity|].
    intros x ->%list_elem_of_singleton. unfold logged_by. simpl.
    by rewrite !String.eqb_refl.
  - unfold on_join_transfer.
    destruct (get_session w tid) as [[l0 s0]|]; [|by apply Hnil].
    destruct (truthy (receiver s0)); [by apply Hnil|]. simpl.
    destruct (activeConnections w !! sid); simpl; [|by apply Hnil].
    eexists. split; [reflexivity|].
    intros x ->%list_elem_of_singleton. unfold logged_by. simpl.
    by rewrite !String.eqb_refl.
  - unfold on_upload_chunk.
    destruct (get_session w (Upload.transferId d)) as [[l0 s0]|];
      [|by apply Hnil].
    case_bool_decide; [by apply Hnil|]. unfold save_and_relay.
    destruct ok; by apply Hnil.
  - unfold on_upload_complete.
    destruct (get_session w tid) as [[l0 s0]|]; [|by apply Hnil]. simpl.
    eexists. split; [reflexivity|].
    intros x ->%list_elem_of_singleton. unfold logged_by. simpl.
    by rewrite !String.eqb_refl.
  - unfold on_get_status.
    destruct (get_session w tid) as [[??]|]; by apply Hnil.
  - unfold on_disconnect.
    destruct (activeConnections w !! sid) as [c|]; [|by apply Hnil].
    destruct (Connection.transferId c) as [tid|]; [|by apply Hnil].
    destruct (truthy (Some tid)); [|by apply Hnil].
    destruct (get_session w tid) as [[??]|]; [|by apply Hnil]. simpl.
    eexists. split; [reflexivity|].
    intros x ->%list_elem_of_singleton. unfold logged_by. simpl.
    by rewrite String.eqb_refl.
  - unfold cleanupTransfer.
    destruct (get_session w tid) as [[??]|]; by apply Hnil.
Qed.

(** X9.  The activity log is append-only, and every entry added during a
    sequence of events records one of these events: a CREATE, JOIN or
    COMPLETE entry has the transferId and the socket of a create-transfer,
    join-transfer or upload-complete event, a DISCONNECT entry the socket of
    a disconnect event.  Uploads, status requests and cleanups are not
    logged. *)
Theorem activity_log_records_events es w :
  ∃ new, activity (run env w es).1 = activity w ++ new ∧
         ∀ x, x ∈ new → ∃ e, e ∈ es ∧ logged_by x e = true.
Proof.
  revert w. induction es as [|e es IH]; intros w; simpl.
  - exists []. rewrite app_nil_r. split; [done|]. by intros x ?%elem_of_nil.
  - destruct (activity_step w e) as (new1 & H1 & Hlog1).
    destruct (handle env w e) as [w1 out1]; simpl in *.
    destruct (IH w1) as (new2 & H2 & Hlog2).
    destruct (run env w1 es) as [w2 out2]; simpl in *.
    exists (new1 ++ new2). split; [by rewrite H2, H1, app_assoc|].
    intros x [Hx|Hx]%elem_of_app.
    + exists e. split; [apply list_elem_of_here|by apply Hlog1].
    + destruct (Hlog2 x Hx) as (e' & He' & Hl').
      exists e'. split; [by apply list_elem_of_further|done].
Qed.

(** What one event does to the registry: a registration found afterwards
    was there before, or is the one of the object just created. *)
Lemma registry_step w e tid l :
  transferSessions (handle env w e).1 !! tid = Some l →
  transferSessions w !! tid = Some l ∨
  (l = length (heap w) ∧ ∃ sid now, e = CreateTransfer sid tid now).
Proof.
  destruct e as [sid now|sid tid0 now|sid tid0|sid d ok n1 n2|sid tid0 now
                |sid tid0|sid|tid0 fails]; simpl.
  - by left.
  - unfold on_create_transfer. simpl.
    assert (Hins : <[tid0:=length (heap w)]> (transferSessions w) !! tid =
                   Some l →
      transferSessions w !! tid = Some l ∨
      (l = length (heap w) ∧ ∃ sid1 now1,
         CreateTransfer sid tid0 now = CreateTransfer sid1 tid now1)).
    { destruct (decide (tid0 = tid)) as [->|Hne].
      - rewrite lookup_insert_eq. intros [= <-]. right. split; [done|].
        by exists sid, now.
      - rewrite lookup_insert_ne by done. by left. }
    by destruct (activeConnections w !! sid).
  - unfold on_join_transfer.
    destruct (get_session w tid0) as [[l0 s0]|]; [|by left].
    destruct (truthy (receiver s0)); [by left|]. simpl.
    destruct (activeConnections w !! sid); by left.
  - unfold on_upload_chunk.
    destruct (get_session w (Upload.transferId d)) as [[l0 s0]|]; [|by left].
    case_bool_decide; [by left|]. unfold save_and_relay.
    destruct ok; by left.
  - unfold on_upload_complete.
    destruct (get_session w tid0) as [[l0 s0]|]; by left.
  - unfold on_get_status. destruct (get_session w tid0) as [[??]|]; by left.
  - unfold on_disconnect.
    destruct (activeConnections w !! sid) as [c|]; [|by left].
    destruct (Connection.transferId c) as [tid1|]; [|by left].
    destruct (truthy (Some tid1)); [|by left].
    destruct (get_session w tid1) as [[??]|]; by left.
  - unfold cleanupTransfer.
    destruct (get_session w tid0) as [[l0 s0]|]; [|by left]. simpl.
    destruct (decide (tid0 = tid)) as [->|Hne].
    + by rewrite lookup_delete_eq.
    + rewrite lookup_delete_ne by done. by left.
Qed.

Lemma initial_well_formed : well_formed env initial.
Proof.
  unfold well_formed, initial. simpl. split_and!.
  - intros tid l. by rewrite lookup_empty.
  - intros tid l s. by rewrite lookup_empty.
  - intros l s. by rewrite lookup_nil.
Qed.

Lemma handle_well_formed w e :
  well_formed env w → well_formed env (handle env w e).1.
Proof.
  intros (Halloc & Hreg & Hheap). split_and!.
  - by apply handle_allocated.
  - intros tid l s' Ht' Hl'.
    destruct (registry_step w e tid l Ht') as [Ht|(Hlen & sid1 & now1 & He)];
      destruct (heap_new w e l s' Hl')
        as [(s & Hl & Hst)|(Hlen' & sid & tid0 & now & He' & Hs')].
    + assert (transferId s' = transferId s) as ->; [|by eapply Hreg].
      destruct Hst; simpl; try done;
        by destruct (store_file_info_fields d now_info s) as (?&?&?&?&?&?).
    + apply Halloc in Ht. lia.
    + apply lookup_lt_Some in Hl. lia.
    + rewrite He in He'. injection He' as _ <- _. by rewrite Hs'.
  - intros l s' Hl'.
    destruct (heap_new w e l s' Hl')
      as [(s & Hl & Hst)|(-> & sid & tid0 & now & -> & ->)].
    + destruct (Hheap l s Hl) as [Hk Hc].
      destruct Hst as [e|sid tid Ht Hr|sid d a b Ht Hs|sid d a b Ht Hs
                      |sid tid now Ht]; try done.
      * split; [done|]. unfold coherent; simpl; eauto.
      * assert (Hinfo : keyed env (store_file_info d a s) ∧
                        coherent (store_file_info d a s)).
        { unfold store_file_info.
          destruct (Upload.chunkIndex d =? 0)%N; [|done].
          split; [done|]. unfold coherent; simpl; eauto. }
        destruct Hinfo as [Hk1 Hc1]. split; [|done].
        intros c. simpl. intros [Hc0| ->%list_elem_of_singleton]%elem_of_app.
        -- by apply Hk1.
        -- simpl.
           destruct (store_file_info_fields d a s) as (->&_).
           by rewrite (Hreg _ _ _ Ht Hl).
      * unfold store_file_info.
        destruct (Upload.chunkIndex d =? 0)%N; [|done].
        split; [done|]. unfold coherent; simpl; eauto.
      * split; [done|]. unfold coherent; simpl; eauto.
    + split; [|unfold coherent; simpl; eauto].
      intros c. simpl. by intros ?%elem_of_nil.
Qed.

Lemma run_well_formed es w :
  well_formed env w → well_formed env (run env w es).1.
Proof.
  revert w. induction es as [|e es IH]; intros w Hw; simpl; [done|].
  pose proof (handle_well_formed w e Hw) as Hw1.
  destruct (handle env w e) as [w1 out1]; simpl in *.
  specialize (IH w1 Hw1). by destruct (run env w1 es).
Qed.

(** X10.  In every state the server reaches from its start, the status of
    a registered session tells about its fields: waiting means no receiver
    and no file info, connected means a receiver is set, uploading means the
    file info is set, completed means completedAt is set. *)
Theorem status_coherent es tid l s :
  get_session (run env initial es).1 tid = Some (l, s) →
  (status s = waiting → receiver s = None ∧ fileInfo s = None) ∧
  (status s = connected → is_Some (receiver s)) ∧
  (status s = uploading → is_Some (fileInfo s)) ∧
  (status s = completed → is_Some (completedAt s)).
Proof.
  intros [_ Hl]%get_session_Some.
  destruct (run_well_formed es initial initial_well_formed) as (_ & _ & Hheap).
  destruct (Hheap l s Hl) as [_ Hc]. unfold coherent in Hc.
  destruct (status s); split_and!; done.
Qed.

(** X11.  In every state the server reaches from its start, the session
    registered under a transferId is the one created under it, and each
    entry of its chunk list holds the storage key that the upload handler
    derives from that transferId and the index of the entry: these are the
    files that the cleanup of the transferId unlinks. *)
Theorem chunk_entries_keyed es tid l s :
  get_session (run env initial es).1 tid = Some (l, s) →
  transferId s = tid ∧
  ∀ c, c ∈ chunks s → Chunk.path c = chunkPath env tid (Chunk.index c).
Proof.
  intros [Ht Hl]%get_session_Some.
  destruct (run_well_formed es initial initial_well_formed)
    as (_ & Hreg & Hheap).
  destruct (Hheap l s Hl) as [Hk _].
  pose proof (Hreg tid l s Ht Hl) as Hid. split; [done|].
  intros c Hc. rewrite <- Hid. by apply Hk.
Qed.

(** X12.  A disconnect never tears a session down: it removes the
    connection record of the socket and leaves the registry, every session
    object, the stored files and the scheduled cleanups as they are; what it
    emits, if anything, is one peer-disconnected event. *)
Theorem disconnect_keeps_sessions w sid :
  transferSessions (handle env w (Disconnect sid)).1 = transferSessions w ∧
  heap (handle env w (Disconnect sid)).1 = heap w ∧
  files (handle env w (Disconnect sid)).1 = files w ∧
  timers (handle env w (Disconnect sid)).1 = timers w ∧
  activeConnections (handle env w (Disconnect sid)).1 =
    delete sid (activeConnections w) ∧
  ((handle env w (Disconnect sid)).2 = [] ∨
   ∃ o tid role,
     (handle env w (Disconnect sid)).2 =
     [io_to_emit o (peer_disconnected tid role)]).
Proof.
  simpl. unfold on_disconnect.
  destruct (activeConnections w !! sid) as [c|]; [|split_and!; by try left].
  destruct (Connection.transferId c) as [tid|]; [|split_and!; by try left].
  destruct (truthy (Some tid)); [|split_and!; by try left].
  destruct (get_session w tid) as [[l s]|]; [|split_and!; by try left].
  simpl. split_and!; try done.
  destruct (if bool_decide (sender s = sid) then receiver s
            else Some (sender s)) as [o|]; [|by left].
  destruct (truthy (Some o)); [|by left]. right. by eexists _, _, _.
Qed.

(** X13.  When a socket bound to an existing session disconnects, the
    party notified with peer-disconnected, carrying the transferId and the
    role recorded for the socket, is the receiver if the socket is the
    sender of the session, and the sender of the session otherwise; nobody
    is notified when the sender leaves a session without receiver.  The
    disconnect is logged. *)
Theorem disconnect_notifies_other_party w sid c tid l s :
  activeConnections w !! sid = Some c →
  Connection.transferId c = Some tid →
  tid ≠ "" →
  get_session w tid = Some (l, s) →
  let out := (handle env w (Disconnect sid)).2 in
  let note := peer_disconnected tid (Connection.role c) in
  (sender s = sid → ∀ r, receiver s = Some r → r ≠ "" →
     out = [io_to_emit r note]) ∧
  (sender s = sid → truthy (receiver s) = false → out = []) ∧
  (sender s ≠ sid → sender s ≠ "" → out = [io_to_emit (sender s) note]) ∧
  activity (handle env w (Disconnect sid)).1 =
    activity w ++ [mkLogEntry DISCONNECT tid sid].
Proof.
  intros Hc Ht Hne Hg out note. subst out note. simpl. unfold on_disconnect.
  rewrite Hc, Ht, Hg. simpl.
  apply String.eqb_neq in Hne as ->. simpl. split_and!; try done.
  - intros Hs r Hr Hrne. rewrite bool_decide_true, Hr by done.
    simpl. by apply String.eqb_neq in Hrne as ->.
  - intros Hs Hr. rewrite bool_decide_true by done.
    destruct (receiver s) as [r|]; [|done]. by rewrite Hr.
  - intros Hs Hsne. rewrite bool_decide_false by done.
    simpl. by apply String.eqb_neq in Hsne as ->.
Qed.

Lemma upload_complete_state w sid tid now l s :
  get_session w tid = Some (l, s) →
  (handle env w (UploadComplete sid tid now)).1 =
  set_timers (timers w ++ [(tid, config.CLEANUP_INTERVAL)])
    (logActivity COMPLETE tid sid
       (store_session l (set_status_completedAt completed (Some now) s) w)).
Proof. intros Hg. simpl. unfold on_upload_complete. by rewrite Hg. Qed.

Lemma run_two w e1 e2 :
  (run env w [e1; e2]).1 = (handle env (handle env w e1).1 e2).1.
Proof.
  simpl. destruct (handle env w e1) as [w1 out1]. simpl.
  by destruct (handle env w1 e2).
Qed.

(** X14.  Upload-complete can be repeated: a second one on the same
    session, from any socket, sets completedAt to its own clock reading and
    schedules a second cleanup of the transferId, the first one staying
    scheduled. *)
Theorem upload_complete_twice w tid l s sid1 now1 sid2 now2 :
  get_session w tid = Some (l, s) →
  ∃ s',
    heap (run env w [UploadComplete sid1 tid now1;
                     UploadComplete sid2 tid now2]).1 !! l = Some s' ∧
    status s' = completed ∧ completedAt s' = Some now2 ∧
    timers (run env w [UploadComplete sid1 tid now1;
                       UploadComplete sid2 tid now2]).1 =
      timers w ++ [(tid, config.CLEANUP_INTERVAL);
                   (tid, config.CLEANUP_INTERVAL)].
Proof.
  intros Hg. rewrite run_two.
  rewrite (upload_complete_state w sid1 tid now1 l s Hg).
  apply get_session_Some in Hg as [Ht Hl].
  pose proof (lookup_lt_Some _ _ _ Hl) as Hlen.
  erewrite upload_complete_state; last first.
  { apply get_session_Some. split; [done|]. simpl.
    by apply list_lookup_insert_eq. }
  simpl. eexists. split.
  - apply list_lookup_insert_eq. by rewrite length_insert.
  - simpl. split_and!; try done. by rewrite <- app_assoc.
Qed.

Lemma cleanup_unregisters tid fails w :
  get_session (cleanupTransfer tid fails w) tid = None.
Proof.
  unfold cleanupTransfer.
  destruct (get_session w tid) as [[l s]|] eqn:Hg; [|done].
  unfold get_session. simpl. by rewrite lookup_delete_eq.
Qed.

(** X15.  After the cleanup of a transferId, whether or not every unlink
    succeeded, the transferId is unknown: join, upload-chunk and
    upload-complete are answered with SESSION_NOT_FOUND and get-status with
    found=false. *)
Theorem after_cleanup_not_found w tid unlink_fails :
  let w' := (handle env w (Cleanup tid unlink_fails)).1 in
  (∀ sid,
     handle env w' (JoinTransfer sid tid) =
     (w', [socket_emit sid (error SESSION_NOT_FOUND None)])) ∧
  (∀ sid d write_ok now_info now_meta,
     Upload.transferId d = tid →
     handle env w' (UploadChunk sid d write_ok now_info now_meta) =
     (w', [socket_emit sid (error SESSION_NOT_FOUND None)])) ∧
  (∀ sid now,
     handle env w' (UploadComplete sid tid now) =
     (w', [socket_emit sid (error SESSION_NOT_FOUND None)])) ∧
  (∀ sid,
     handle env w' (GetStatus sid tid) =
     (w', [socket_emit sid status_response_not_found])).
Proof.
  intros w'. subst w'. simpl.
  pose proof (cleanup_unregisters tid unlink_fails w) as Hg.
  split_and!.
  - intros sid. unfold on_join_transfer. by rewrite Hg.
  - intros sid d ok a b <-. unfold on_upload_chunk. by rewrite Hg.
  - intros sid now. unfold on_upload_complete. by rewrite Hg.
  - intros sid. unfold on_get_status. by rewrite Hg.
Qed.

(** X17.  An upload whose index is not 0 and whose write succeeds adds
    its entry to the chunk list and changes no other field of the session:
    in particular a session whose chunk 0 has not arrived keeps its status
    and stays without file info, whatever chunks it has received. *)
Theorem later_chunk_keeps_status w sid d now_info now_meta l s :
  get_session w (Upload.transferId d) = Some (l, s) →
  sender s = sid →
  Upload.chunkIndex d ≠ 0%N →
  heap (handle env w (UploadChunk sid d true now_info now_meta)).1 !! l =
  Some (push_chunk (chunk_meta env d now_meta) s) ∧
  status (push_chunk (chunk_meta env d now_meta) s) = status s ∧
  fileInfo (push_chunk (chunk_meta env d now_meta) s) = fileInfo s.
Proof.
  intros Hg Hs Hi. simpl. unfold on_upload_chunk. rewrite Hg.
  rewrite bool_decide_false by (by intros ?).
  apply get_session_Some in Hg as [_ Hl].
  unfold save_and_relay, store_file_info.
  apply N.eqb_neq in Hi as ->. simpl. split; [|done].
  apply list_lookup_insert_eq. by eapply lookup_lt_Some.
Qed.

Lemma files_untouched w e p :
  touches env p e = false →
  files (handle env w e).1 !! p = files w !! p.
Proof.
  destruct e as [sid now|sid tid now|sid tid|sid d ok n1 n2|sid tid now|sid tid
                |sid|tid fails]; simpl; intros Ht; try done.
  - unfold on_create_transfer. simpl. by destruct (activeConnections w !! sid).
  - unfold on_join_transfer.
    destruct (get_session w tid) as [[l0 s0]|]; [|done].
    destruct (truthy (receiver s0)); [done|]. simpl.
    by destruct (activeConnections w !! sid).
  - unfold on_upload_chunk.
    destruct (get_session w (Upload.transferId d)) as [[l0 s0]|]; [|done].
    case_bool_decide; [done|]. unfold save_and_relay.
    destruct ok; simpl; [|done].
    apply String.eqb_neq in Ht. by rewrite lookup_insert_ne.
  - unfold on_upload_complete.
    by destruct (get_session w tid) as [[l0 s0]|].
  - unfold on_get_status. by destruct (get_session w tid) as [[??]|].
  - unfold on_disconnect.
    destruct (activeConnections w !! sid) as [c|]; [|done].
    destruct (Connection.transferId c) as [tid|]; [|done].
    destruct (truthy (Some tid)); [|done].
    by destruct (get_session w tid) as [[??]|].
Qed.

(** X18.  A stored chunk stays as it is until its key is written again or
    a cleanup runs: over a sequence of events without cleanup and without a
    saved upload under the key, the content of the key is unchanged (last
    write wins, and nothing else writes). *)
Theorem stored_chunk_persists es w p :
  avoids env (λ _ e, touches env p e) w es = true →
  files (run env w es).1 !! p = files w !! p.
Proof.
  revert w. induction es as [|e es IH]; intros w; simpl; [done|].
  intros [He%negb_true_iff Hav]%andb_true_iff.
  pose proof (files_untouched w e p He) as Hstep.
  destruct (handle env w e) as [w1 out1]; simpl in *.
  specialize (IH w1 Hav). destruct (run env w1 es) as [w2 out2]; simpl in *.
  congruence.
Qed.

End Handlers_facts.

(** *** The termination handlers *)

Lemma cleanup_allocated tid fails w :
  allocated w → allocated (cleanupTransfer tid fails w).
Proof.
  intros Hw. unfold cleanupTransfer.
  destruct (get_session w tid) as [[l0 s0]|]; [|done].
  intros tid0 l1. simpl. destruct (decide (tid = tid0)) as [->|Hne].
  - by rewrite lookup_delete_eq.
  - rewrite lookup_delete_ne by done. apply Hw.
Qed.

Lemma cleanup_registry_None tid fails w t :
  transferSessions w !! t = None →
  transferSessions (cleanupTransfer tid fails w) !! t = None.
Proof.
  intros Ht. unfold cleanupTransfer.
  destruct (get_session w tid) as [[l0 s0]|]; [|done]. simpl.
  destruct (decide (tid = t)) as [->|Hne].
  - by rewrite lookup_delete_eq.
  - by rewrite lookup_delete_ne.
Qed.

Lemma cleanup_registry_self tid fails w :
  allocated w → transferSessions (cleanupTransfer tid fails w) !! tid = None.
Proof.
  intros Hw. unfold cleanupTransfer.
  destruct (get_session w tid) as [[l0 s0]|] eqn:Hg.
  - simpl. apply lookup_delete_eq.
  - destruct (transferSessions w !! tid) as [l|] eqn:Ht; [|done].
    destruct (lookup_lt_is_Some_2 (heap w) l (Hw _ _ Ht)) as [s Hs].
    assert (get_session w tid = Some (l, s)) as Hg'
      by (unfold get_session; rewrite Ht; simpl; by rewrite Hs).
    congruence.
Qed.

Lemma cleanup_get_session_other tid fails w t :
  tid ≠ t → get_session (cleanupTransfer tid fails w) t = get_session w t.
Proof.
  intros Hne. unfold cleanupTransfer.
  destruct (get_session w tid) as [[l0 s0]|]; [|done].
  unfold get_session. simpl. by rewrite lookup_delete_ne.
Qed.

Lemma cleanup_heap tid fails w : heap (cleanupTransfer tid fails w) = heap w.
Proof.
  unfold cleanupTransfer. by destruct (get_session w tid) as [[l0 s0]|].
Qed.

Lemma cleanup_files_sub tid fails w p :
  files (cleanupTransfer tid fails w) !! p = None ∨
  files (cleanupTransfer tid fails w) !! p = files w !! p.
Proof.
  unfold cleanupTransfer.
  destruct (get_session w tid) as [[l0 s0]|]; [|by right]. simpl.
  apply unlink_chunks_sub.
Qed.

Lemma shutdown_cons k ks fails w :
  shutdown (k :: ks) fails w = shutdown ks fails (cleanupTransfer k (fails k) w).
Proof. reflexivity. Qed.

Lemma shutdown_files_sub keys fails w p :
  files (shutdown keys fails w) !! p = None ∨
  files (shutdown keys fails w) !! p = files w !! p.
Proof.
  revert w. induction keys as [|k ks IH]; intros w; [by right|].
  rewrite shutdown_cons.
  destruct (IH (cleanupTransfer k (fails k) w)) as [H|H]; [by left|].
  rewrite H. apply cleanup_files_sub.
Qed.

Lemma shutdown_registry keys fails w tid :
  allocated w →
  tid ∈ keys ∨ transferSessions w !! tid = None →
  transferSessions (shutdown keys fails w) !! tid = None.
Proof.
  revert w. induction keys as [|k ks IH]; intros w Hw.
  - by intros [?%elem_of_nil|?].
  - rewrite shutdown_cons.
    intros Hcase. apply IH; [by apply cleanup_allocated|].
    destruct Hcase as [[->|Hin]%elem_of_cons|Hnone].
    + right. by apply cleanup_registry_self.
    + by left.
    + right. by apply cleanup_registry_None.
Qed.

Lemma shutdown_unlinks keys fails w tid l s i c :
  tid ∈ keys →
  get_session w tid = Some (l, s) →
  chunks s !! i = Some c →
  fails tid i = false →
  files (shutdown keys fails w) !! Chunk.path c = None.
Proof.
  revert w. induction keys as [|k ks IH]; intros w Hin Hg Hi Hf.
  - by apply elem_of_nil in Hin.
  - rewrite shutdown_cons. destruct (decide (k = tid)) as [->|Hne].
    + destruct (shutdown_files_sub ks fails
        (cleanupTransfer tid (fails tid) w) (Chunk.path c)) as [H|H];
        [done|].
      rewrite H. unfold cleanupTransfer. rewrite Hg. simpl.
      by apply (unlink_chunks_deleted _ 0 _ _ i).
    + apply IH; [|by rewrite cleanup_get_session_other|done|done].
      apply elem_of_cons in Hin as [->|Hin]; done.
Qed.

Lemma shutdown_heap keys fails w : heap (shutdown keys fails w) = heap w.
Proof.
  revert w. induction keys as [|k ks IH]; intros w; [done|].
  by rewrite shutdown_cons, IH, cleanup_heap.
Qed.

(** X19.  The loop of the termination handlers, run over the keys of the
    registry in whatever order, leaves the registry empty and has removed
    the file of every chunk entry of every registered session whose unlink
    did not fail; it writes no file and changes no session object. *)
Theorem shutdown_cleans_everything keys unlink_fails w :
  allocated w →
  (∀ tid, tid ∈ keys ↔ is_Some (transferSessions w !! tid)) →
  transferSessions (shutdown keys unlink_fails w) = ∅ ∧
  (∀ tid l s i c,
     get_session w tid = Some (l, s) →
     chunks s !! i = Some c →
     unlink_fails tid i = false →
     files (shutdown keys unlink_fails w) !! Chunk.path c = None) ∧
  (∀ p, files (shutdown keys unlink_fails w) !! p = None ∨
        files (shutdown keys unlink_fails w) !! p = files w !! p) ∧
  heap (shutdown keys unlink_fails w) = heap w.
Proof.
  intros Hw Hkeys. split_and!.
  - apply map_eq. intros tid. rewrite lookup_empty.
    apply shutdown_registry; [done|].
    destruct (transferSessions w !! tid) as [l|] eqn:Ht; [|by right].
    left. apply Hkeys. by rewrite Ht.
  - intros tid l s i c Hg Hi Hf.
    apply (shutdown_unlinks keys unlink_fails w tid l s i c); try done.
    apply Hkeys. apply get_session_Some in Hg as [-> _]. done.
  - apply shutdown_files_sub.
  - apply shutdown_heap.
Qed.


(** ** Concrete runs *)

Example path_join_default : path.join "./temp" "t1_chunk_0" = "temp/t1_chunk_0".
Proof. reflexivity. Qed.

Example path_join_dotdot : path.join "/a/b/" "../c//d/" = "/a/c/d/".
Proof. reflexivity. Qed.

Example path_join_above : path.join "../x" "../../y" = "../../y".
Proof. reflexivity. Qed.

Example path_join_empty : path.join "" "" = ".".
Proof. reflexivity. Qed.

Example of_N_10 : Str.of_N 10 = "10" ∧ Str.of_N 0 = "0".
Proof. split; reflexivity. Qed.

(** The first scenario of the specification: what is emitted, in order. *)
Example scenario_transfer :
  (run None initial
     [Connect "s" 1%N; Connect "r" 2%N; CreateTransfer "s" "t1" 3%N;
      JoinTransfer "r" "t1";
      UploadChunk "s" first_chunk true 4%N 5%N;
      UploadChunk "s" second_chunk true 6%N 7%N;
      UploadComplete "s" "t1" 8%N]).2 =
  [socket_emit "s" (transfer_created "t1");
   io_to_emit "s" (receiver_connected "t1" "r");
   socket_emit "r" (joined_transfer "t1");
   io_to_emit "r" (relay_of first_chunk);
   socket_emit "s" (chunk_uploaded 0%N);
   io_to_emit "r" (relay_of second_chunk);
   socket_emit "s" (chunk_uploaded 1%N);
   io_to_emit "r"
     (transfer_complete "t1" (Some (mkFileInfo "a.txt" 20 "text/plain" 2 4)))].
Proof. vm_compute. reflexivity. Qed.

(** The second scenario: an upload without any join. *)
Example scenario_no_receiver :
  (handle None w_uploading (GetStatus "s" "t1")).2 =
  [socket_emit "s"
     (status_response uploading
        (Some (mkFileInfo "a.txt" 20 "text/plain" 2 4)) 1 2%N)].
Proof. vm_compute. reflexivity. Qed.

(** The third scenario: the sender leaves, the session stays. *)
Example scenario_sender_disconnects :
  (handle None w_joined (Disconnect "s")).2 =
    [io_to_emit "r" (peer_disconnected "t1" (Some role_sender))] ∧
  get_session (handle None w_joined (Disconnect "s")).1 "t1" =
    Some (0, s_joined).
Proof. vm_compute. split; reflexivity. Qed.

(** C1 fails on the code: the first chunk arrives while no receiver is
    bound; the receiver joins while the write of the chunk is pending; when
    the write has succeeded the handler finds the receiver and relays the
    chunk to it. *)
Lemma relay_after_late_join :
  get_session w_created "t1" = Some (0, s_created) ∧
  sender s_created = "s" ∧ receiver s_created = None ∧
  (steps None (w_created, [])
     [upload_arrives "s" first_chunk 4%N;
      handles (JoinTransfer "r" "t1");
      write_settles 0 true 5%N]).2 =
  [io_to_emit "s" (receiver_connected "t1" "r");
   socket_emit "r" (joined_transfer "t1");
   io_to_emit "r" (relay_of first_chunk);
   socket_emit "s" (chunk_uploaded 0%N)] ∧
  status <$>
    heap (steps None (w_created, [])
            [upload_arrives "s" first_chunk 4%N;
             handles (JoinTransfer "r" "t1");
             write_settles 0 true 5%N]).1.1 !! 0 = Some connected.
Proof. split_and!; vm_compute; reflexivity. Qed.

(** The write of the first chunk succeeds with the receiver [r] joined:
    the chunk is relayed to [r] and then acknowledged to [s]. *)
Lemma upload_chunk_relay_witness :
  get_session w_joined "t1" = Some (0, s_joined) ∧
  sender s_joined = "s" ∧
  (step None (w_joined, [mkPending "s" first_chunk 0])
     (write_settles 0 true 5%N)).2 =
  [io_to_emit "r" (relay_of first_chunk);
   socket_emit "s" (chunk_uploaded 0%N)].
Proof.
  assert (Hg : get_session w_joined "t1" = Some (0, s_joined))
    by (vm_compute; reflexivity).
  split; [exact Hg|]. split; [reflexivity|].
  destruct (upload_chunk_relay None w_joined [] "s" first_chunk 4%N 0
              s_joined Hg eq_refl) as [_ Hsettle].
  destruct (Hsettle w_joined [mkPending "s" first_chunk 0] 0 s_joined 5%N
              eq_refl ltac:(vm_compute; reflexivity))
    as (w' & out & Hstep & Hrelay & _).
  rewrite Hstep. apply (Hrelay "r"); [reflexivity|discriminate].
Defined.

(** C2 fails on the code: the write of chunk 0 fails, the sender gets
    CHUNK_SAVE_ERROR, and the session, which had no file info and status
    waiting, now has the file info of the event and status uploading. *)
Lemma save_error_changes_session :
  get_session w_created "t1" = Some (0, s_created) ∧
  sender s_created = "s" ∧
  (handle None w_created (UploadChunk "s" first_chunk false 4%N 5%N)).2 =
    [socket_emit "s" (error CHUNK_SAVE_ERROR (Some 0%N))] ∧
  fileInfo s_created = None ∧ status s_created = waiting ∧
  heap w_save_failed !! 0 =
    Some (mkSession "t1" "s" None []
            (Some (mkFileInfo "a.txt" 20 "text/plain" 2 4)) 3 uploading None) ∧
  ¬ (∃ s', heap w_save_failed !! 0 = Some s' ∧
           fileInfo s' = fileInfo s_created ∧ status s' = status s_created).
Proof.
  assert (Hh : heap w_save_failed !! 0 =
    Some (mkSession "t1" "s" None []
            (Some (mkFileInfo "a.txt" 20 "text/plain" 2 4)) 3 uploading None))
    by (vm_compute; reflexivity).
  split_and!; try (vm_compute; reflexivity).
  intros (s' & Hs' & Hfi & _). rewrite Hh in Hs'. injection Hs' as <-.
  discriminate Hfi.
Qed.

(** The write of the second chunk fails before any upload: the sender gets
    the error and the state is the one before. *)
Lemma upload_chunk_save_error_witness :
  get_session w_created "t1" = Some (0, s_created) ∧
  sender s_created = "s" ∧
  ∃ w' s',
    handle None w_created (UploadChunk "s" second_chunk false 4%N 5%N) =
    (w', [socket_emit "s" (error CHUNK_SAVE_ERROR (Some 1%N))]) ∧
    heap w' !! 0 = Some s' ∧ chunks s' = chunks s_created ∧ w' = w_created.
Proof.
  assert (Hg : get_session w_created "t1" = Some (0, s_created))
    by (vm_compute; reflexivity).
  split; [exact Hg|]. split; [reflexivity|].
  destruct (upload_chunk_save_error None w_created "s" second_chunk 4%N 5%N 0
              s_created Hg eq_refl)
    as (w' & s' & He & Hl & Hc & _ & _ & _ & _ & Hsame & _).
  exists w', s'. split; [exact He|]. split; [exact Hl|]. split; [exact Hc|].
  apply Hsame. discriminate.
Defined.

(** C3 fails on the code: the sender uploads chunk 0 before anyone has
    joined, which makes the session uploading; the join that follows makes
    it connected. *)
Lemma status_regresses_on_join :
  status <$> heap w_created !! 0 = Some waiting ∧
  status <$> heap w_uploading !! 0 = Some uploading ∧
  status <$> heap (handle None w_uploading (JoinTransfer "r" "t1")).1 !! 0 =
    Some connected ∧
  (handle None w_uploading (JoinTransfer "r" "t1")).2 =
    [io_to_emit "s" (receiver_connected "t1" "r");
     socket_emit "r" (joined_transfer "t1")] ∧
  ¬ rank uploading ≤ rank connected.
Proof. split_and!; try (vm_compute; reflexivity). simpl. lia. Qed.

(** A transfer that is joined, uploaded, completed and left, in that
    order. *)
Lemma status_forward_witness :
  heap w_joined !! 0 = Some s_joined ∧
  avoids None (regresses 0) w_joined
    [UploadChunk "s" first_chunk true 4%N 5%N;
     UploadChunk "s" second_chunk false 6%N 7%N;
     UploadComplete "s" "t1" 8%N; GetStatus "r" "t1"; Disconnect "r"] = true ∧
  ∃ s',
    heap (run None w_joined
            [UploadChunk "s" first_chunk true 4%N 5%N;
             UploadChunk "s" second_chunk false 6%N 7%N;
             UploadComplete "s" "t1" 8%N; GetStatus "r" "t1";
             Disconnect "r"]).1 !! 0 = Some s' ∧
    rank (status s_joined) ≤ rank (status s').
Proof.
  assert (Hl : heap w_joined !! 0 = Some s_joined) by (vm_compute; reflexivity).
  split; [exact Hl|]. split; [vm_compute; reflexivity|].
  destruct (status_forward None 0 w_joined s_joined Hl) as [Hforward _].
  apply Hforward. vm_compute; reflexivity.
Defined.

(** C4 fails on the code: the first attempt at chunk 0 fails after the file
    info was stored with the clock reading 4; the retry of the same chunk
    stores it again with the clock reading 6. *)
Lemma retry_rewrites_file_info :
  fileInfo <$> heap w_save_failed !! 0 =
    Some (Some (mkFileInfo "a.txt" 20 "text/plain" 2 4)) ∧
  fileInfo <$>
    heap (handle None w_save_failed
            (UploadChunk "s" first_chunk true 6%N 7%N)).1 !! 0 =
    Some (Some (mkFileInfo "a.txt" 20 "text/plain" 2 6)) ∧
  mkFileInfo "a.txt" 20 "text/plain" 2 4 ≠
  mkFileInfo "a.txt" 20 "text/plain" 2 6.
Proof. split_and!; try (vm_compute; reflexivity). discriminate. Qed.

(** After the first chunk, a join, the second chunk and the completion
    leave the file info as it is. *)
Lemma file_info_changes_only_on_first_chunk_witness :
  heap w_uploading !! 0 =
    Some (mkSession "t1" "s" None
            [Chunk.mk 0 "temp/t1_chunk_0" 2 5]
            (Some (mkFileInfo "a.txt" 20 "text/plain" 2 4)) 3 uploading None) ∧
  ∃ s',
    heap (run None w_uploading
            [JoinTransfer "r" "t1";
             UploadChunk "s" second_chunk true 6%N 7%N;
             UploadComplete "r" "t1" 8%N]).1 !! 0 = Some s' ∧
    fileInfo s' = Some (mkFileInfo "a.txt" 20 "text/plain" 2 4).
Proof.
  assert (Hl : heap w_uploading !! 0 =
    Some (mkSession "t1" "s" None
            [Chunk.mk 0 "temp/t1_chunk_0" 2 5]
            (Some (mkFileInfo "a.txt" 20 "text/plain" 2 4)) 3 uploading None))
    by (vm_compute; reflexivity).
  split; [exact Hl|].
  destruct (file_info_changes_only_on_first_chunk None 0 w_uploading _ Hl)
    as [Hkeep _].
  apply Hkeep. vm_compute; reflexivity.
Defined.



(** C6 fails on the code: [path.join] normalizes the key, so that the
    transferIds [./t1] and [t1] share the keys of their chunks; and the
    handler does not check that the chunk index is a number, so that the
    string index [0/../y_chunk_0] gives transfer [x] the key of chunk 0 of
    transfer [y]. *)
Lemma chunk_path_collision :
  chunkPath None "./t1" 0 = "temp/t1_chunk_0" ∧
  chunkPath None "t1" 0 = "temp/t1_chunk_0" ∧
  ("./t1", 0%N) ≠ ("t1", 0%N) ∧
  chunkKey None "x" "0/../y_chunk_0" = "temp/y_chunk_0" ∧
  chunkKey None "y" "0" = "temp/y_chunk_0" ∧
  chunkPath None "y" 0 = chunkKey None "y" "0".
Proof. split_and!; try (vm_compute; reflexivity). discriminate. Qed.

(** Two transfers, same chunk index. *)
Lemma chunk_path_injective_witness :
  Str.contains path.sep "t1" = false ∧
  Str.contains path.sep "t2" = false ∧
  (1 < 10 ^ 21)%N ∧
  ("t1", 1%N) ≠ ("t2", 1%N) ∧
  chunkPath None "t1" 1 ≠ chunkPath None "t2" 1 ∧
  chunkKey None "t1" "1.5" ≠ chunkKey None "t1" "1e+21".
Proof.
  destruct (chunk_path_injective None) as [Htext Hnum].
  split; [reflexivity|]. split; [reflexivity|]. split; [reflexivity|].
  split; [discriminate|]. split.
  - apply Hnum; [reflexivity|reflexivity|reflexivity|reflexivity|discriminate].
  - apply Htext; try reflexivity. discriminate.
Defined.

(** A third socket tries to join the transfer that [r] has joined. *)
Lemma join_receiver_exists_witness :
  get_session w_joined "t1" = Some (0, s_joined) ∧
  truthy (receiver s_joined) = true ∧
  handle None w_joined (JoinTransfer "x" "t1") =
  (w_joined, [socket_emit "x" (error RECEIVER_EXISTS None)]).
Proof.
  assert (Hg : get_session w_joined "t1" = Some (0, s_joined))
    by (vm_compute; reflexivity).
  split; [exact Hg|]. split; [reflexivity|].
  destruct (join_receiver_exists None w_joined "t1" 0 s_joined Hg eq_refl)
    as [Hjoin _].
  apply Hjoin.
Defined.

(** The receiver tries to upload a chunk. *)
Lemma upload_chunk_unauthorized_witness :
  get_session w_joined "t1" = Some (0, s_joined) ∧
  sender s_joined ≠ "r" ∧
  handle None w_joined (UploadChunk "r" first_chunk true 4%N 5%N) =
  (w_joined, [socket_emit "r" (error UNAUTHORIZED None)]).
Proof.
  assert (Hg : get_session w_joined "t1" = Some (0, s_joined))
    by (vm_compute; reflexivity).
  split; [exact Hg|]. split; [discriminate|].
  apply (upload_chunk_unauthorized None w_joined "r" first_chunk true 4%N 5%N
           0 s_joined Hg).
  discriminate.
Defined.

(** Cleanup after two chunks, the first unlink failing: the second file is
    removed all the same and the transfer leaves the registry. *)
Lemma cleanup_transfer_witness :
  get_session w_two_chunks "t1" =
    Some (0, mkSession "t1" "s" (Some "r")
               [Chunk.mk 0 "temp/t1_chunk_0" 2 5;
                Chunk.mk 1 "temp/t1_chunk_1" 1 7]
               (Some (mkFileInfo "a.txt" 20 "text/plain" 2 4)) 3 uploading
               None) ∧
  files (cleanupTransfer "t1" (λ i, bool_decide (i = 0)) w_two_chunks)
    !! "temp/t1_chunk_1" = None ∧
  transferSessions (cleanupTransfer "t1" (λ i, bool_decide (i = 0)) w_two_chunks)
    !! "t1" = None.
Proof.
  assert (Hg : get_session w_two_chunks "t1" =
    Some (0, mkSession "t1" "s" (Some "r")
               [Chunk.mk 0 "temp/t1_chunk_0" 2 5;
                Chunk.mk 1 "temp/t1_chunk_1" 1 7]
               (Some (mkFileInfo "a.txt" 20 "text/plain" 2 4)) 3 uploading
               None)) by (vm_compute; reflexivity).
  split; [exact Hg|].
  destruct (cleanup_transfer w_two_chunks "t1" (λ i, bool_decide (i = 0)))
    as [_ Hreg].
  destruct (Hreg _ _ Hg) as (Hgone & Hfiles & _).
  split; [|exact Hgone].
  apply (Hfiles 1 (Chunk.mk 1 "temp/t1_chunk_1" 1 7)); reflexivity.
Defined.

(** A socket that never connected to the transfer completes it. *)
Lemma upload_complete_any_caller_witness :
  get_session w_joined "t1" = Some (0, s_joined) ∧
  (handle None w_joined (UploadComplete "stranger" "t1" 8%N)).2 =
    [io_to_emit "r" (transfer_complete "t1" None)] ∧
  status <$> heap (handle None w_joined (UploadComplete "stranger" "t1" 8%N)).1
    !! 0 = Some completed.
Proof.
  assert (Hg : get_session w_joined "t1" = Some (0, s_joined))
    by (vm_compute; reflexivity).
  split; [exact Hg|].
  destruct (upload_complete_any_caller None w_joined "stranger" "t1" 8%N 0
              s_joined Hg) as (w' & out & s' & He & Hout & _ & Hl & Hst & _).
  rewrite He. simpl. split.
  - apply (Hout "r"); [reflexivity|discriminate].
  - by rewrite Hl, <- Hst.
Defined.

(** ** Instances of the further properties *)

(** A transferId nobody created. *)
Lemma session_not_found_witness :
  transferSessions w_joined !! "t9" = None ∧
  handle None w_joined (JoinTransfer "r" "t9") =
  (w_joined, [socket_emit "r" (error SESSION_NOT_FOUND None)]).
Proof.
  assert (Ht : transferSessions w_joined !! "t9" = None)
    by (vm_compute; reflexivity).
  split; [exact Ht|].
  destruct (session_not_found None w_joined "t9" Ht) as [Hjoin _].
  apply Hjoin.
Defined.

(** The receiver joins the transfer that the sender has created. *)
Lemma join_binds_receiver_witness :
  get_session w_created "t1" = Some (0, s_created) ∧
  truthy (receiver s_created) = false ∧
  activeConnections w_created !! "r" = Some (Connection.mk 2%N None None) ∧
  (handle None w_created (JoinTransfer "r" "t1")).2 =
  [io_to_emit "s" (receiver_connected "t1" "r");
   socket_emit "r" (joined_transfer "t1")].
Proof.
  assert (Hg : get_session w_created "t1" = Some (0, s_created))
    by (vm_compute; reflexivity).
  assert (Hc : activeConnections w_created !! "r" =
               Some (Connection.mk 2%N None None))
    by (vm_compute; reflexivity).
  split; [exact Hg|]. split; [reflexivity|]. split; [exact Hc|].
  destruct (join_binds_receiver None w_created "r" "t1" 0 s_created _
              Hg eq_refl Hc) as (w' & s' & He & _).
  by rewrite He.
Defined.

(** The receiver creates the transfer [t1] again, over the one that has
    two chunks: the new session is registered, the old object stays. *)
Lemma create_transfer_registers_witness :
  activeConnections w_two_chunks !! "r" =
    Some (Connection.mk 2%N (Some role_receiver) (Some "t1")) ∧
  get_session (handle None w_two_chunks (CreateTransfer "r" "t1" 9%N)).1 "t1" =
    Some (1, mkSession "t1" "r" None [] None 9%N waiting None).
Proof.
  assert (Hc : activeConnections w_two_chunks !! "r" =
               Some (Connection.mk 2%N (Some role_receiver) (Some "t1")))
    by (vm_compute; reflexivity).
  split; [exact Hc|].
  destruct (create_transfer_registers None w_two_chunks "r" "t1" 9%N _ Hc)
    as (w' & He & Hg & _).
  rewrite He. exact Hg.
Defined.

Lemma chunks_append_only_witness :
  heap w_uploading !! 0 =
    Some (mkSession "t1" "s" None
            [Chunk.mk 0 "temp/t1_chunk_0" 2 5]
            (Some (mkFileInfo "a.txt" 20 "text/plain" 2 4)) 3 uploading None) ∧
  ∃ s',
    heap (run None w_uploading
            [JoinTransfer "r" "t1";
             UploadChunk "s" second_chunk true 6%N 7%N;
             Cleanup "t1" (λ _, false)]).1 !! 0 = Some s' ∧
    [Chunk.mk 0 "temp/t1_chunk_0" 2 5] `prefix_of` chunks s' ∧
    1 ≤ length (chunks s').
Proof.
  assert (Hl : heap w_uploading !! 0 =
    Some (mkSession "t1" "s" None
            [Chunk.mk 0 "temp/t1_chunk_0" 2 5]
            (Some (mkFileInfo "a.txt" 20 "text/plain" 2 4)) 3 uploading None))
    by (vm_compute; reflexivity).
  split; [exact Hl|].
  exact (chunks_append_only None 0 w_uploading _
           [JoinTransfer "r" "t1";
            UploadChunk "s" second_chunk true 6%N 7%N;
            Cleanup "t1" (λ _, false)] Hl).
Defined.

Lemma session_identity_immutable_witness :
  heap w_created !! 0 = Some s_created ∧
  ∃ s',
    heap (run None w_created
            [JoinTransfer "r" "t1";
             UploadChunk "s" first_chunk true 4%N 5%N;
             UploadComplete "r" "t1" 8%N;
             CreateTransfer "r" "t1" 9%N]).1 !! 0 = Some s' ∧
    transferId s' = "t1" ∧ sender s' = "s" ∧ startTime s' = 3%N.
Proof.
  assert (Hl : heap w_created !! 0 = Some s_created)
    by (vm_compute; reflexivity).
  split; [exact Hl|].
  exact (session_identity_immutable None 0 w_created s_created
           [JoinTransfer "r" "t1";
            UploadChunk "s" first_chunk true 4%N 5%N;
            UploadComplete "r" "t1" 8%N;
            CreateTransfer "r" "t1" 9%N] Hl).
Defined.

Lemma only_sender_adds_chunks_witness :
  heap w_joined !! 0 = Some s_joined ∧
  heap (handle None w_joined (UploadChunk "s" first_chunk true 4%N 5%N)).1
    !! 0 =
    Some (mkSession "t1" "s" (Some "r")
            [Chunk.mk 0 "temp/t1_chunk_0" 2 5]
            (Some (mkFileInfo "a.txt" 20 "text/plain" 2 4)) 3 uploading None) ∧
  ∃ d now_info now_meta,
    UploadChunk "s" first_chunk true 4%N 5%N =
    UploadChunk (sender s_joined) d true now_info now_meta.
Proof.
  assert (Hl : heap w_joined !! 0 = Some s_joined) by (vm_compute; reflexivity).
  assert (Hl' :
    heap (handle None w_joined (UploadChunk "s" first_chunk true 4%N 5%N)).1
      !! 0 =
    Some (mkSession "t1" "s" (Some "r")
            [Chunk.mk 0 "temp/t1_chunk_0" 2 5]
            (Some (mkFileInfo "a.txt" 20 "text/plain" 2 4)) 3 uploading None))
    by (vm_compute; reflexivity).
  split; [exact Hl|]. split; [exact Hl'|].
  destruct (only_sender_adds_chunks None w_joined _ 0 s_joined _ Hl Hl')
    as (d & a & b & He & _); [discriminate|].
  by exists d, a, b.
Defined.

Lemma files_only_uploaded_chunks_witness :
  files w_two_chunks !! "temp/t1_chunk_1" = Some [Byte.x21] ∧
  (files w_joined !! "temp/t1_chunk_1" = Some [Byte.x21] ∨
   ∃ sid d now_info now_meta,
     UploadChunk sid d true now_info now_meta ∈
       [UploadChunk "s" first_chunk true 4%N 5%N;
        UploadChunk "s" second_chunk true 6%N 7%N] ∧
     "temp/t1_chunk_1" =
       chunkPath None (Upload.transferId d) (Upload.chunkIndex d) ∧
     [Byte.x21] = Upload.chunk d).
Proof.
  assert (Hf : files w_two_chunks !! "temp/t1_chunk_1" = Some [Byte.x21])
    by (vm_compute; reflexivity).
  split; [exact Hf|].
  exact (files_only_uploaded_chunks None
           [UploadChunk "s" first_chunk true 4%N 5%N;
            UploadChunk "s" second_chunk true 6%N 7%N]
           w_joined "temp/t1_chunk_1" [Byte.x21] Hf).
Defined.

(** The sender stays connected while the receiver joins and leaves. *)
Lemma connection_record_persists_witness :
  is_Some (activeConnections w_created !! "s") ∧
  is_Some (activeConnections
             (run None w_created
                [JoinTransfer "r" "t1"; Disconnect "r"]).1 !! "s").
Proof.
  assert (Hc : is_Some (activeConnections w_created !! "s"))
    by (vm_compute; eexists; reflexivity).
  split; [exact Hc|].
  destruct (connection_record_persists None "s" w_created Hc) as [Hkeep _].
  apply Hkeep. vm_compute. reflexivity.
Defined.

Lemma status_coherent_witness :
  get_session
    (run None initial
       [Connect "s" 1%N; CreateTransfer "s" "t1" 3%N;
        UploadChunk "s" first_chunk true 4%N 5%N]).1 "t1" =
    Some (0, mkSession "t1" "s" None
               [Chunk.mk 0 "temp/t1_chunk_0" 2 5]
               (Some (mkFileInfo "a.txt" 20 "text/plain" 2 4)) 3 uploading
               None) ∧
  is_Some (Some (mkFileInfo "a.txt" 20 "text/plain" 2 4)).
Proof.
  assert (Hg : get_session
    (run None initial
       [Connect "s" 1%N; CreateTransfer "s" "t1" 3%N;
        UploadChunk "s" first_chunk true 4%N 5%N]).1 "t1" =
    Some (0, mkSession "t1" "s" None
               [Chunk.mk 0 "temp/t1_chunk_0" 2 5]
               (Some (mkFileInfo "a.txt" 20 "text/plain" 2 4)) 3 uploading
               None)) by (vm_compute; reflexivity).
  split; [exact Hg|].
  destruct (status_coherent None _ "t1" 0 _ Hg) as (_ & _ & Hup & _).
  apply Hup. reflexivity.
Defined.

Lemma chunk_entries_keyed_witness :
  get_session
    (run None initial
       [Connect "s" 1%N; CreateTransfer "s" "t1" 3%N;
        UploadChunk "s" first_chunk true 4%N 5%N]).1 "t1" =
    Some (0, mkSession "t1" "s" None
               [Chunk.mk 0 "temp/t1_chunk_0" 2 5]
               (Some (mkFileInfo "a.txt" 20 "text/plain" 2 4)) 3 uploading
               None) ∧
  Chunk.path (Chunk.mk 0 "temp/t1_chunk_0" 2 5) = chunkPath None "t1" 0.
Proof.
  assert (Hg : get_session
    (run None initial
       [Connect "s" 1%N; CreateTransfer "s" "t1" 3%N;
        UploadChunk "s" first_chunk true 4%N 5%N]).1 "t1" =
    Some (0, mkSession "t1" "s" None
               [Chunk.mk 0 "temp/t1_chunk_0" 2 5]
               (Some (mkFileInfo "a.txt" 20 "text/plain" 2 4)) 3 uploading
               None)) by (vm_compute; reflexivity).
  split; [exact Hg|].
  destruct (chunk_entries_keyed None _ "t1" 0 _ Hg) as [_ Hkeys].
  apply (Hkeys (Chunk.mk 0 "temp/t1_chunk_0" 2 5)). apply list_elem_of_here.
Defined.

(** The receiver leaves: the sender is told. *)
Lemma disconnect_notifies_other_party_witness :
  activeConnections w_joined !! "r" =
    Some (Connection.mk 2%N (Some role_receiver) (Some "t1")) ∧
  "t1" ≠ "" ∧
  get_session w_joined "t1" = Some (0, s_joined) ∧
  (handle None w_joined (Disconnect "r")).2 =
  [io_to_emit "s" (peer_disconnected "t1" (Some role_receiver))].
Proof.
  assert (Hc : activeConnections w_joined !! "r" =
               Some (Connection.mk 2%N (Some role_receiver) (Some "t1")))
    by (vm_compute; reflexivity).
  assert (Hg : get_session w_joined "t1" = Some (0, s_joined))
    by (vm_compute; reflexivity).
  assert (Hne : "t1" ≠ "") by discriminate.
  split; [exact Hc|]. split; [exact Hne|]. split; [exact Hg|].
  destruct (disconnect_notifies_other_party None w_joined "r" _ "t1" 0
              s_joined Hc eq_refl Hne Hg) as (_ & _ & Hsender & _).
  apply Hsender; discriminate.
Defined.

Lemma upload_complete_twice_witness :
  get_session w_joined "t1" = Some (0, s_joined) ∧
  ∃ s',
    heap (run None w_joined
            [UploadComplete "s" "t1" 8%N; UploadComplete "r" "t1" 9%N]).1
      !! 0 = Some s' ∧
    status s' = completed ∧ completedAt s' = Some 9%N ∧
    timers (run None w_joined
              [UploadComplete "s" "t1" 8%N; UploadComplete "r" "t1" 9%N]).1 =
      timers w_joined ++ [("t1", config.CLEANUP_INTERVAL);
                          ("t1", config.CLEANUP_INTERVAL)].
Proof.
  assert (Hg : get_session w_joined "t1" = Some (0, s_joined))
    by (vm_compute; reflexivity).
  split; [exact Hg|].
  exact (upload_complete_twice None w_joined "t1" 0 s_joined "s" 8%N "r" 9%N
           Hg).
Defined.

(** The second chunk arrives first. *)
Lemma later_chunk_keeps_status_witness :
  get_session w_created "t1" = Some (0, s_created) ∧
  sender s_created = "s" ∧
  Upload.chunkIndex second_chunk ≠ 0%N ∧
  heap (handle None w_created (UploadChunk "s" second_chunk true 4%N 5%N)).1
    !! 0 =
  Some (mkSession "t1" "s" None [Chunk.mk 1 "temp/t1_chunk_1" 1 5] None 3
          waiting None).
Proof.
  assert (Hg : get_session w_created "t1" = Some (0, s_created))
    by (vm_compute; reflexivity).
  assert (Hi : Upload.chunkIndex second_chunk ≠ 0%N) by discriminate.
  split; [exact Hg|]. split; [reflexivity|]. split; [exact Hi|].
  destruct (later_chunk_keeps_status None w_created "s" second_chunk 4%N 5%N
              0 s_created Hg eq_refl Hi) as [Hl _].
  rewrite Hl. vm_compute. reflexivity.
Defined.

Lemma stored_chunk_persists_witness :
  avoids None (λ _ e, touches None "temp/t1_chunk_0" e) w_uploading
    [JoinTransfer "r" "t1"; UploadChunk "s" second_chunk true 6%N 7%N;
     UploadComplete "s" "t1" 8%N; Disconnect "s"] = true ∧
  files (run None w_uploading
           [JoinTransfer "r" "t1"; UploadChunk "s" second_chunk true 6%N 7%N;
            UploadComplete "s" "t1" 8%N; Disconnect "s"]).1
    !! "temp/t1_chunk_0" =
  files w_uploading !! "temp/t1_chunk_0".
Proof.
  assert (Hav : avoids None (λ _ e, touches None "temp/t1_chunk_0" e)
    w_uploading
    [JoinTransfer "r" "t1"; UploadChunk "s" second_chunk true 6%N 7%N;
     UploadComplete "s" "t1" 8%N; Disconnect "s"] = true)
    by (vm_compute; reflexivity).
  split; [exact Hav|].
  exact (stored_chunk_persists None _ w_uploading "temp/t1_chunk_0" Hav).
Defined.

(** Termination with one transfer registered, its first unlink failing. *)
Lemma shutdown_cleans_everything_witness :
  allocated w_two_chunks ∧
  (∀ tid, tid ∈ ["t1"] ↔ is_Some (transferSessions w_two_chunks !! tid)) ∧
  transferSessions
    (shutdown ["t1"] (λ _ i, bool_decide (i = 0)) w_two_chunks) = ∅ ∧
  files (shutdown ["t1"] (λ _ i, bool_decide (i = 0)) w_two_chunks)
    !! "temp/t1_chunk_1" = None.
Proof.
  assert (Hreg : transferSessions w_two_chunks = {["t1" := 0]})
    by (vm_compute; reflexivity).
  assert (Hw : allocated w_two_chunks).
  { intros tid l. rewrite Hreg. intros [_ <-]%lookup_singleton_Some.
    vm_compute. lia. }
  assert (Hkeys : ∀ tid,
    tid ∈ ["t1"] ↔ is_Some (transferSessions w_two_chunks !! tid)).
  { intros tid. rewrite Hreg, list_elem_of_singleton. split.
    - intros ->. rewrite lookup_singleton_eq. by eexists.
    - intros [l [-> _]%lookup_singleton_Some]. reflexivity. }
  split; [exact Hw|]. split; [exact Hkeys|].
  destruct (shutdown_cleans_everything ["t1"] (λ _ i, bool_decide (i = 0))
              w_two_chunks Hw Hkeys) as (Hempty & Hfiles & _).
  split; [exact Hempty|].
  apply (Hfiles "t1" 0
           (mkSession "t1" "s" (Some "r")
              [Chunk.mk 0 "temp/t1_chunk_0" 2 5;
               Chunk.mk 1 "temp/t1_chunk_1" 1 7]
              (Some (mkFileInfo "a.txt" 20 "text/plain" 2 4)) 3 uploading
              None)
           1 (Chunk.mk 1 "temp/t1_chunk_1" 1 7)).
  - vm_compute. reflexivity.
  - reflexivity.
  - reflexivity.
Defined.
